(** * LinkedIn job scraper: heuristic filter, deduplication, classification
      and persistence

    A shallow embedding of the parts of [src/scrape.py], [src/main.py],
    [src/ollama_setup.py] and [src/config/settings.py] that decide the
    behaviour of [is_job_post], the deduplication loop of [scrape_posts],
    [save_to_csv], [inference], [classify_jobs] and [save_posts_to_csv].

    Python [str] values that are matched against patterns are lists of code
    points ([list N]); identifiers, dictionary keys and file names are Rocq
    strings. *)

From Stdlib Require Import NArith Ascii String.
From stdpp Require Import gmap strings list.

Local Open Scope N_scope.

(** ** Text: code points, the Unicode tables of the interpreter, patterns *)
Module Text.

(** A Python [str]: a sequence of code points. *)
Definition str_of (s : string) : list N :=
  map N_of_ascii (list_ascii_of_string s).

(** Python truthiness of a [str]: only the empty string is falsy. *)
Definition truthy (s : list N) : bool :=
  match s with [] => false | _ :: _ => true end.

(** The Unicode character database that ships with the interpreter. It is
    not part of the repository, so the tables are taken as a parameter:
    - [tolower]: the simple lower-case mapping the [re] engine applies to the
      subject character under [re.IGNORECASE];
    - [casefix]: the extra equivalent characters of a lower-cased pattern
      letter ([re._casefix]);
    - [isdecimal], [isspace]: the classes [\d] and [\s] of a [str] pattern;
    - [str_lower]: [str.lower()]. *)
Record unicode_db := {
  tolower : N -> N;
  casefix : N -> list N;
  isdecimal : N -> bool;
  isspace : N -> bool;
  str_lower : list N -> list N
}.

Definition is_ascii (c : N) : bool := c <? 128.
Definition ascii_isupper (c : N) : bool := (65 <=? c) && (c <=? 90).
Definition ascii_islower (c : N) : bool := (97 <=? c) && (c <=? 122).
Definition ascii_tolower (c : N) : N := if ascii_isupper c then c + 32 else c.
Definition ascii_isdigit (c : N) : bool := (48 <=? c) && (c <=? 57).
(** ASCII white space of [str]: TAB..CR, FS..US and the blank. *)
Definition ascii_isspace (c : N) : bool :=
  ((9 <=? c) && (c <=? 13)) || ((28 <=? c) && (c <=? 32)).

(** The tables restricted to what they say about ASCII: every other
    character is uncased, no digit and no space. *)
Definition ascii_db : unicode_db :=
  {| tolower := ascii_tolower;
     casefix := fun _ => [];
     isdecimal := ascii_isdigit;
     isspace := ascii_isspace;
     str_lower := map ascii_tolower |}.

(** What every Unicode database says about ASCII text. *)
Record ascii_exact (db : unicode_db) : Prop := {
  ax_tolower : forall c, c < 128 -> tolower db c = ascii_tolower c;
  ax_casefix : forall p x, p < 128 -> In x (casefix db p) -> 128 <= x;
  ax_isdecimal : forall c, c < 128 -> isdecimal db c = ascii_isdigit c;
  ax_isspace : forall c, c < 128 -> isspace db c = ascii_isspace c;
  ax_str_lower : forall s,
    Forall (fun c => c < 128) s -> str_lower db s = map ascii_tolower s
}.

(** One character position of a compiled pattern. [Fold p] is a cased
    literal compiled under [re.IGNORECASE] ([p] is already lower case),
    [Exact c] an uncased literal, [Digit] is [\d], [Space] is [\s]. *)
Inductive atom :=
  | Exact (c : N)
  | Fold (p : N)
  | Digit
  | Space.

Inductive regex :=
  | Nul
  | Eps
  | Chr (a : atom)
  | Seq (r1 r2 : regex)
  | Alt (r1 r2 : regex)
  | Star (r : regex).

Definition opt (r : regex) : regex := Alt r Eps.
Definition plus (r : regex) : regex := Seq r (Star r).

Definition alts (rs : list regex) : regex := foldr Alt Nul rs.

(** A literal piece of pattern text compiled with [re.IGNORECASE]: the
    patterns of the program only hold ASCII, so a letter is a cased literal
    (lower-cased by the compiler) and anything else an uncased one. *)
Definition lit_atom (c : N) : atom :=
  if ascii_isupper c || ascii_islower c then Fold (ascii_tolower c) else Exact c.

Definition lit (s : string) : regex :=
  foldr (fun c r => Seq (Chr (lit_atom c)) r) Eps (str_of s).

Section Engine.
Variable db : unicode_db.

Definition atom_matches (a : atom) (c : N) : bool :=
  match a with
  | Exact x => c =? x
  | Fold p => let lo := tolower db c in (lo =? p) || existsb (N.eqb lo) (casefix db p)
  | Digit => isdecimal db c
  | Space => isspace db c
  end.

Fixpoint nullable (r : regex) : bool :=
  match r with
  | Nul => false
  | Eps => true
  | Chr _ => false
  | Seq r1 r2 => nullable r1 && nullable r2
  | Alt r1 r2 => nullable r1 || nullable r2
  | Star _ => true
  end.

Definition seq (r1 r2 : regex) : regex :=
  match r1 with
  | Nul => Nul
  | Eps => r2
  | _ => Seq r1 r2
  end.

Definition alt (r1 r2 : regex) : regex :=
  match r1, r2 with
  | Nul, _ => r2
  | _, Nul => r1
  | _, _ => Alt r1 r2
  end.

(** What is left of [r] after it has read [c]. *)
Fixpoint deriv (c : N) (r : regex) : regex :=
  match r with
  | Nul => Nul
  | Eps => Nul
  | Chr a => if atom_matches a c then Eps else Nul
  | Seq r1 r2 =>
      if nullable r1 then alt (seq (deriv c r1) r2) (deriv c r2)
      else seq (deriv c r1) r2
  | Alt r1 r2 => alt (deriv c r1) (deriv c r2)
  | Star r1 => seq (deriv c r1) (Star r1)
  end.

(** [r] matches some prefix of [s]. *)
Fixpoint match_at (r : regex) (s : list N) : bool :=
  nullable r ||
  match s with
  | [] => false
  | c :: s' => match_at (deriv c r) s'
  end.

(** [re.search]: scan for the first position at which the pattern
    matches; the boolean says whether a match object is returned. *)
Fixpoint re_search (r : regex) (s : list N) : bool :=
  match_at r s ||
  match s with
  | [] => false
  | _ :: s' => re_search r s'
  end.

(** [needle in hay] on two [str]. *)
Fixpoint is_prefix (needle hay : list N) : bool :=
  match needle, hay with
  | [], _ => true
  | _ :: _, [] => false
  | x :: n', y :: h' => (x =? y) && is_prefix n' h'
  end.

Fixpoint contains (needle hay : list N) : bool :=
  is_prefix needle hay ||
  match hay with
  | [] => false
  | _ :: h' => contains needle h'
  end.
End Engine.

(** The strings a pattern denotes. *)
Inductive matches (db : unicode_db) : regex -> list N -> Prop :=
  | matches_Eps : matches db Eps []
  | matches_Chr a c : atom_matches db a c = true -> matches db (Chr a) [c]
  | matches_Seq r1 r2 s1 s2 :
      matches db r1 s1 -> matches db r2 s2 -> matches db (Seq r1 r2) (s1 ++ s2)
  | matches_Alt_l r1 r2 s : matches db r1 s -> matches db (Alt r1 r2) s
  | matches_Alt_r r1 r2 s : matches db r2 s -> matches db (Alt r1 r2) s
  | matches_Star_nil r : matches db (Star r) []
  | matches_Star_app r s1 s2 :
      matches db r s1 -> matches db (Star r) s2 -> matches db (Star r) (s1 ++ s2).

(** A pattern whose literals are all ASCII. *)
Definition ascii_atom (a : atom) : bool :=
  match a with
  | Exact c => is_ascii c
  | Fold p => is_ascii p
  | Digit | Space => true
  end.

Fixpoint ascii_pattern (r : regex) : bool :=
  match r with
  | Nul | Eps => true
  | Chr a => ascii_atom a
  | Seq r1 r2 | Alt r1 r2 => ascii_pattern r1 && ascii_pattern r2
  | Star r1 => ascii_pattern r1
  end.

End Text.

(** ** [src/config/settings.py] *)
Module Settings.

Definition CSV_FIELDNAMES : list string :=
  ["content"; "url"; "profile_name"]%string.

Definition JOB_KEYWORDS : list string :=
  [ "hiring"; "opening"; "opportunity"; "position"; "job"; "career";
    "vacancy"; "recruitment"; "apply"; "experience required";
    "skills required"; "role"; "responsibilities"; "qualifications";
    "immediate joining"; "urgent hiring"; "job description" ]%string.

Definition OUTPUT_CSV_FILENAME : string := "linkedin_jobs.csv".

End Settings.

(** ** Python values and exceptions the embedded code handles *)
Module Py.

(** The value of a dictionary entry: a [str] or an [int]. *)
Inductive value :=
  | VStr (s : list N)
  | VInt (z : Z).

(** Truthiness: the empty string and zero are falsy. *)
Definition truthy (v : value) : bool :=
  match v with
  | VStr s => Text.truthy s
  | VInt z => negb (z =? 0)%Z
  end.

(** Exceptions. [InvalidArgument] is the [ValueError("Input and format are
    required.")] of [inference]; [InferenceFailure] stands for whatever the
    model backend or the validation of its answer raises. *)
Inductive exn :=
  | NameError (name : string)
  | KeyError (key : string)
  | TypeError
  | FileNotFoundError
  | OSError
  | ValueError
  | InvalidArgument
  | InferenceFailure.

(** A Python [dict] with [str] keys. *)
Abbreviation dict := (gmap string value).

End Py.

(** ** [src/scrape.py] *)
Module Scrape.
Import Text.

(** *** The evaluations [is_job_post] performs

    [is_job_post] is a sequence of pattern searches and substring tests.
    Each one is recorded as it is evaluated, so that an early [return] can be
    told from a full evaluation. *)
Inductive probe :=
  | Search_job_pattern
  | Search_requirements
  | Search_experience
  | Search_apply_action
  | Lower
  | Contains (needle : string).

Definition W (A : Type) : Type := (A * list probe)%type.

Definition ret {A} (a : A) : W A := (a, []).

Definition bind {A B} (m : W A) (k : A -> W B) : W B :=
  let '(a, l1) := m in
  let '(b, l2) := k a in
  (b, l1 ++ l2).

Definition probing {A} (p : probe) (a : A) : W A := (a, [p]).

Notation "'let*' x ':=' m 'in' k" := (bind m (fun x => k))
  (at level 10, x name, m at level 100, k at level 200).

(** [self.job_pattern = re.compile("|".join(self.job_keywords), re.IGNORECASE)] *)
Definition job_pattern : regex := alts (map lit Settings.JOB_KEYWORDS).

(** [r"requirements?|qualifications?"] *)
Definition requirements_pattern : regex :=
  Alt (Seq (lit "requirement") (opt (lit "s")))
      (Seq (lit "qualification") (opt (lit "s"))).

(** [r"\d+\+?\s*years?|years? of experience"] *)
Definition experience_pattern : regex :=
  Alt (Seq (plus (Chr Digit))
        (Seq (opt (Chr (Exact 43)))
          (Seq (Star (Chr Space))
            (Seq (lit "year") (opt (lit "s"))))))
      (Seq (lit "year") (Seq (opt (lit "s")) (lit " of experience"))).

(** [r"apply|send|email|dm|interested|opportunity"] *)
Definition apply_action_pattern : regex :=
  alts (map lit ["apply"; "send"; "email"; "dm"; "interested"; "opportunity"]%string).

(** Python's [sum] over a list of [bool]. *)
Definition sum_bools (l : list bool) : nat :=
  fold_left (fun acc (b : bool) => (acc + Nat.b2n b)%nat) l 0%nat.

Section Filter.
Variable db : unicode_db.

(** The indicators, as the expressions of the source. *)
Definition has_requirements (content : list N) : bool :=
  re_search db requirements_pattern content.
Definition has_experience (content : list N) : bool :=
  re_search db experience_pattern content.
Definition has_apply_action (content : list N) : bool :=
  re_search db apply_action_pattern content.
Definition in_lower (word : string) (content : list N) : bool :=
  contains (str_of word) (str_lower db content).

(** Lines 370-391: the seven indicators and their sum. *)
Definition count_indicators (content : list N) : W nat :=
  let* has_requirements :=
    probing Search_requirements (re_search db requirements_pattern content) in
  let* has_experience :=
    probing Search_experience (re_search db experience_pattern content) in
  let* has_apply_action :=
    probing Search_apply_action (re_search db apply_action_pattern content) in
  let* content_lower := probing Lower (str_lower db content) in
  let* has_resume := probing (Contains "resume") (contains (str_of "resume") content_lower) in
  let* has_cv := probing (Contains "cv") (contains (str_of "cv") content_lower) in
  let* has_position :=
    probing (Contains "position") (contains (str_of "position") content_lower) in
  let* has_role := probing (Contains "role") (contains (str_of "role") content_lower) in
  ret (sum_bools [ has_requirements; has_experience; has_apply_action;
                   has_resume; has_cv; has_position; has_role ]).

(** Lines 351-393. *)
Definition is_job_post_w (content : list N) : W bool :=
  if negb (truthy content) then ret false
  else
    let* found := probing Search_job_pattern (re_search db job_pattern content) in
    if negb found then ret false
    else
      let* indicators := count_indicators content in
      ret (2 <=? indicators)%nat.

Definition is_job_post (content : list N) : bool := fst (is_job_post_w content).
Definition probes (content : list N) : list probe := snd (is_job_post_w content).
Definition indicators (content : list N) : nat := fst (count_indicators content).

(** A probe of the scoring stage (everything after the keyword gate). *)
Definition stage2_probe (p : probe) : bool :=
  match p with Search_job_pattern => false | _ => true end.
End Filter.


(** *** The deduplication loop of [scrape_posts] *)

(** What [extract_post_details] returns for an element it could read
    (lines 342-346). *)
Record post_data := {
  content : list N;
  url : list N;
  profile_name : list N
}.

(** The loop state: [processed_urls] and [fetched_posts]. *)
Record cycle := {
  processed_urls : gset (list N);
  fetched_posts : list post_data
}.

(** Lines 262-263. *)
Definition cycle_start : cycle :=
  {| processed_urls := ∅; fetched_posts := [] |}.

(** One iteration of lines 273-281 on the candidate that
    [extract_post_details] returned for the element ([None] when the
    extraction failed). *)
Definition scrape_step (st : cycle) (candidate : option post_data) : cycle :=
  match candidate with
  | None => st
  | Some post_data =>
      if bool_decide (url post_data ∈ processed_urls st) then st
      else {| processed_urls := processed_urls st ∪ {[ url post_data ]};
              fetched_posts := fetched_posts st ++ [post_data] |}
  end.

Definition scrape_loop (candidates : list (option post_data)) : cycle :=
  fold_left scrape_step candidates cycle_start.

(** Lines 267-284, given the candidates of the elements found. *)
Definition scrape_posts (candidates : list (option post_data)) : list post_data :=
  match candidates with
  | [] => []
  | _ => fetched_posts (scrape_loop candidates)
  end.

(** The candidate at position [i] is the first one with its url. *)
Definition first_with_url (cs : list (option post_data)) (i : nat) (p : post_data) : Prop :=
  cs !! i = Some (Some p)
  /\ forall j q, (j < i)%nat -> cs !! j = Some (Some q) -> url q <> url p.

(** *** [save_to_csv] *)

(** The values bound to module-level names, as far as the program reads
    them. *)
Inductive binding :=
  | Names (l : list string)
  | Object.

(** The global namespace of [src/scrape.py]: its imports (lines 8-29), its
    constants, and the class and function it defines. *)
Definition scrape_globals : gmap string binding :=
  list_to_map
    [ ("logging", Object); ("webdriver", Object); ("By", Object);
      ("Keys", Object); ("WebDriverWait", Object); ("EC", Object);
      ("TimeoutException", Object); ("NoSuchElementException", Object);
      ("time", Object); ("random", Object); ("csv", Object); ("os", Object);
      ("re", Object); ("Optional", Object); ("Dict", Object); ("List", Object);
      ("MAX_SCROLL_ATTEMPTS", Object); ("MIN_SLEEP_TIME", Object);
      ("MAX_SLEEP_TIME", Object); ("WEBDRIVER_WAIT_TIMEOUT", Object);
      ("RUN_INTERVAL", Object); ("INDIAN_CITIES", Object);
      ("JOB_KEYWORDS", Names Settings.JOB_KEYWORDS);
      ("LINKEDIN_LOGIN_URL", Object); ("LINKEDIN_POST_BASE_URL", Object);
      ("SELECTORS", Object); ("logger", Object);
      ("LinkedInJobScraper", Object); ("scrape_jobs", Object) ]%string.

(** The builtins the module uses. *)
Definition builtins : gmap string binding :=
  list_to_map
    [ ("isinstance", Object); ("int", Object); ("tuple", Object);
      ("list", Object); ("len", Object); ("type", Object); ("set", Object);
      ("bool", Object); ("sum", Object); ("range", Object); ("open", Object);
      ("Exception", Object); ("ValueError", Object); ("TypeError", Object);
      ("KeyboardInterrupt", Object) ]%string.

(** Reading a global name inside a method of the module: the module
    namespace, then the builtins, else [NameError]. *)
Definition load_global (name : string) : Py.exn + binding :=
  match scrape_globals !! name with
  | Some v => inr v
  | None =>
      match builtins !! name with
      | Some v => inr v
      | None => inl (Py.NameError name)
      end
  end.

(** A CSV file: the rows written so far, one cell per field ([None] for a
    missing value). *)
Abbreviation csv_row := (list (option Py.value)).
Abbreviation files := (gmap string (list csv_row)).

Definition header_row (fieldnames : list string) : csv_row :=
  map (fun f => Some (Py.VStr (str_of f))) fieldnames.

(** [DictWriter.writerow]: a key outside [fieldnames] raises [ValueError]. *)
Definition dict_row (fieldnames : list string) (d : Py.dict) : Py.exn + csv_row :=
  if forallb (fun k => bool_decide (k ∈ fieldnames)) (map fst (map_to_list d))
  then inr (map (fun f => d !! f) fieldnames)
  else inl Py.ValueError.

Definition append_row (filename : string) (row : csv_row) (fs : files) : files :=
  <[ filename := default [] (fs !! filename) ++ [row] ]> fs.

Fixpoint writerows (fieldnames : list string) (filename : string)
    (posts : list Py.dict) (fs : files) : (Py.exn + unit) * files :=
  match posts with
  | [] => (inr tt, fs)
  | d :: rest =>
      match dict_row fieldnames d with
      | inl e => (inl e, fs)
      | inr row => writerows fieldnames filename rest (append_row filename row fs)
      end
  end.

Section SaveToCsv.
(** Whether the operating system lets [filename] be opened for appending. *)
Variable can_open : string -> bool.

(** [open(filename, "a", ...)]: the empty path names no file; an absent
    file is created empty. *)
Definition open_append (filename : string) (fs : files) : Py.exn + files :=
  if bool_decide (filename = ""%string) then inl Py.FileNotFoundError
  else if can_open filename then
    inr (match fs !! filename with
         | Some _ => fs
         | None => <[ filename := [] ]> fs
         end)
  else inl Py.OSError.

(** Lines 290-309. The result is the exception raised, if any, and the
    files as the call leaves them. *)
Definition save_to_csv (posts : list Py.dict) (filename : string) (fs : files)
    : (Py.exn + unit) * files :=
  let file_exists := bool_decide (is_Some (fs !! filename)) in
  match open_append filename fs with
  | inl e => (inl e, fs)
  | inr fs1 =>
      match load_global "csv" with
      | inl e => (inl e, fs1)
      | inr _ =>
          match load_global "CSV_FIELDNAMES" with
          | inl e => (inl e, fs1)
          | inr Object => (inl Py.TypeError, fs1)
          | inr (Names fieldnames) =>
              let fs2 :=
                if negb file_exists
                then append_row filename (header_row fieldnames) fs1
                else fs1 in
              writerows fieldnames filename posts fs2
          end
      end
  end.
End SaveToCsv.

End Scrape.

(** ** [src/ollama_setup.py] *)
Module Ollama.

(** One request sent to the model: the [system] and the [user] message. *)
Record call := {
  call_prompt : list N;
  call_input : Py.value
}.

Section Inference.
Context {Schema Result : Type}.

(** The model behind [chat] followed by [format.model_validate_json]: the
    validated answer to the request that is sent after [n] earlier ones,
    or [None] when the backend or the validation raises. *)
Variable backend : nat -> Schema -> list N -> Py.value -> option Result.

Definition falsy_input (input : option Py.value) : bool :=
  match input with None => true | Some v => negb (Py.truthy v) end.

Definition falsy_prompt (prompt : option (list N)) : bool :=
  match prompt with None => true | Some s => negb (Text.truthy s) end.

(** A class object is always truthy: only an absent [format] is falsy. *)
Definition falsy_format (format : option Schema) : bool :=
  match format with None => true | Some _ => false end.

(** Lines 169-193, on the log of the requests sent so far. *)
Definition inference (input : option Py.value) (prompt : option (list N))
    (format : option Schema) (sent : list call)
    : (Py.exn + Result) * list call :=
  match input, prompt, format with
  | Some i, Some p, Some f =>
      if negb (Py.truthy i) || negb (Text.truthy p) then (inl Py.InvalidArgument, sent)
      else
        let sent' := sent ++ [ {| call_prompt := p; call_input := i |} ] in
        match backend (length sent) f p i with
        | Some response => (inr response, sent')
        | None => (inl Py.InferenceFailure, sent')
        end
  | _, _, _ => (inl Py.InvalidArgument, sent)
  end.
End Inference.

End Ollama.

(** ** [src/main.py] *)
Module Main.

(** Modelled from the spec: the schemas [HiringPost] and
    [NamesClassification] of [src/dataclass], which is not among the sources;
    a validated result is a structured object with exactly one field,
    [classification], which is 0 or 1. *)
Inductive schema := HiringPost | NamesClassification.

Record result := { classification : bool }.

Definition classification_value (r : result) : Py.value :=
  Py.VInt (Z.b2z (classification r)).

(** Dictionaries are mutable objects: a list of posts holds references, and
    the heap maps a reference to the current content of its [dict]. *)
Abbreviation ref := positive.

Record world := {
  heap : gmap ref Py.dict;
  sent : list Ollama.call;
  slept : nat
}.

(** The [dict] a reference denotes. *)
Definition deref (w : world) (r : ref) : Py.dict := default ∅ (heap w !! r).

(** State and exception monad: an exception keeps the state reached. *)
Definition M (A : Type) : Type := world -> (Py.exn + A) * world.

Definition ret {A} (a : A) : M A := fun w => (inr a, w).

Definition raise {A} (e : Py.exn) : M A := fun w => (inl e, w).

Definition bind {A B} (m : M A) (k : A -> M B) : M B :=
  fun w =>
    match m w with
    | (inl e, w') => (inl e, w')
    | (inr a, w') => k a w'
    end.

Notation "'let*' x ':=' m 'in' k" := (bind m (fun x => k))
  (at level 10, x binder, m at level 100, k at level 200).

(** [time.sleep(n)] *)
Definition sleep (n : nat) : M unit :=
  fun w => (inr tt, {| heap := heap w; sent := sent w; slept := slept w + n |}).

(** [d[key]] on the object behind [r]. *)
Definition getitem (r : ref) (key : string) : M Py.value :=
  fun w =>
    match deref w r !! key with
    | Some v => (inr v, w)
    | None => (inl (Py.KeyError key), w)
    end.

(** [d[key] = v] on the object behind [r], in place. *)
Definition setitem (r : ref) (key : string) (v : Py.value) : M unit :=
  fun w =>
    (inr tt, {| heap := <[ r := <[ key := v ]> (deref w r) ]> (heap w);
                sent := sent w; slept := slept w |}).

Section Classify.
Variable backend : nat -> schema -> list N -> Py.value -> option result.

(** [self.ollama_model_setup.inference(...)] *)
Definition inference (input : option Py.value) (prompt : option (list N))
    (format : option schema) : M result :=
  fun w =>
    let '(r, sent') := Ollama.inference backend input prompt format (sent w) in
    (r, {| heap := heap w; sent := sent'; slept := slept w |}).

(** Lines 70-76: [enumerate(posts)] yields each item with its index, and
    [posts[index]] is that same item. *)
Fixpoint classify_loop (prompt : list N) (items : list ref) : M unit :=
  match items with
  | [] => ret tt
  | post :: rest =>
      let* input := getitem post "content" in
      let* result := inference (Some input) (Some prompt) (Some HiringPost) in
      let* _ := setitem post "hiring_post" (classification_value result) in
      classify_loop prompt rest
  end.

(** Lines 57-78. The list returned is the list passed in, or a new empty
    list when that one is absent or empty. *)
Definition classify_jobs (posts : option (list ref)) (prompt : list N)
    : M (list ref) :=
  match posts with
  | None | Some [] => ret []
  | Some items =>
      let* _ := sleep 10 in
      let* _ := classify_loop prompt items in
      ret items
  end.
End Classify.

(** *** [save_posts_to_csv] *)

(** A [DataFrame]: its rows, a column that a row lacks being absent from the
    row's map. *)
Abbreviation dataframe := (list Py.dict).

Inductive log_record :=
  | Warning_no_posts
  | Info_appended (new total : nat)
  | Info_saved (new : nat)
  | Error_failed_to_save.

(** The calls to the file system and to pandas, in the order made. *)
Inductive io_op := Op_exists | Op_read_csv | Op_to_csv.

Section Persistence.
(** The content of a file. *)
Context {File : Type}.

(** The text [DataFrame.to_csv(index=False)] writes, and the table
    [pd.read_csv] parses from a text ([None]: it raises). *)
Variable to_csv_text : dataframe -> File.
Variable read_csv_text : File -> option dataframe.

(** What the environment does to a call that touches the file: the read
    may raise, and a write that raises leaves the path in a state of the
    environment's choosing (absent, untouched, truncated or part
    written). *)
Inductive write_io :=
  | Write_ok
  | Write_raises (leaves : option File).

Record io := {
  read_raises : bool;
  write : write_io
}.

Record saved := {
  returned : dataframe;
  store : option File;
  ops : list io_op;
  logged : list log_record
}.

(** [df.to_csv(OUTPUT_CSV_FILENAME, index=False)] inside the [try]: the
    rest of the branch runs only when it returns. *)
Definition to_csv (env : io) (df df_new : dataframe) (before : list io_op)
    (on_success : log_record) : saved :=
  match write env with
  | Write_ok =>
      {| returned := df; store := Some (to_csv_text df);
         ops := before ++ [Op_to_csv]; logged := [on_success] |}
  | Write_raises leaves =>
      {| returned := df_new; store := leaves;
         ops := before ++ [Op_to_csv]; logged := [Error_failed_to_save] |}
  end.

(** Lines 103-123, on the state of [OUTPUT_CSV_FILENAME] ([None]: there is
    no such file). *)
Definition save_posts_to_csv (posts : option (list Py.dict)) (env : io)
    (file : option File) : saved :=
  match posts with
  | None | Some [] =>
      {| returned := []; store := file; ops := []; logged := [Warning_no_posts] |}
  | Some rows =>
      let df_new : dataframe := rows in
      match file with
      | Some text =>
          let failed :=
            {| returned := df_new; store := file;
               ops := [Op_exists; Op_read_csv]; logged := [Error_failed_to_save] |} in
          if read_raises env then failed
          else
            match read_csv_text text with
            | None => failed
            | Some df_existing =>
                let df_combined := df_existing ++ df_new in
                to_csv env df_combined df_new [Op_exists; Op_read_csv]
                  (Info_appended (length df_new) (length df_combined))
            end
      | None =>
          to_csv env df_new df_new [Op_exists] (Info_saved (length df_new))
      end
  end.

(** The records the store holds. *)
Definition records (file : option File) : option dataframe :=
  match file with
  | None => Some []
  | Some text => read_csv_text text
  end.
End Persistence.

End Main.

(** ** [src/scrape.py]: extraction of a post, search for the post elements *)
Module Extraction.
Import Text Scrape.

Definition LINKEDIN_POST_BASE_URL : list N :=
  str_of "https://www.linkedin.com/feed/update/".

(** Lines 51-55. *)
Definition post_containers : list string :=
  [ "div.feed-shared-update-v2"; "div.update-components-actor";
    "div[data-urn^='urn:li:activity']" ]%string.

(** What the browser gives for a post element: the text of its
    [span.break-words] and of its [span.update-components-actor__title]
    ([None]: the lookup raises), and its [data-urn] attribute ([None]: the
    attribute is absent or reading it raises). *)
Record element := {
  content_text : option (list N);
  actor_title : option (list N);
  data_urn : option (list N)
}.

(** [s.split("\n")[0]] *)
Fixpoint first_line (s : list N) : list N :=
  match s with
  | [] => []
  | c :: s' => if c =? 10 then [] else c :: first_line s'
  end.

Section Extract.
Variable db : unicode_db.

(** [str.strip()]: white space is removed at both ends. *)
Fixpoint lstrip (s : list N) : list N :=
  match s with
  | [] => []
  | c :: s' => if isspace db c then lstrip s' else s
  end.

Definition rstrip (s : list N) : list N := rev (lstrip (rev s)).

Definition strip (s : list N) : list N := rstrip (lstrip s).

(** Lines 311-349; every exception ends in [None]. *)
Definition extract_post_details (post_element : element) : option post_data :=
  match content_text post_element with
  | None => None
  | Some text =>
      let content := strip text in
      if negb (truthy content) then None
      else
        match actor_title post_element with
        | None => None
        | Some title =>
            let profile_name := strip (first_line title) in
            let post_url :=
              match data_urn post_element with
              | Some urn =>
                  if truthy urn then Some (LINKEDIN_POST_BASE_URL ++ urn) else None
              | None => None
              end in
            match post_url with
            | None => None
            | Some post_url =>
                Some {| content := content; url := post_url;
                        profile_name := profile_name |}
            end
        end
  end.

(** Lines 395-412, on a [Dict[str, str]] ([None]: no post). The content is
    lower-cased before it is handed to [is_job_post]. *)
Definition is_relevant_post (post_data : option (gmap string (list N))) : bool :=
  match post_data with
  | None => false
  | Some d =>
      if bool_decide (d = ∅) then false
      else
        let content := str_lower db (default [] (d !! "content"%string)) in
        is_job_post db content
  end.
End Extract.

Section Find.
Context {Element : Type}.

(** [self.driver.find_elements(By.CSS_SELECTOR, selector)]; [None]: the
    driver raises. *)
Variable find_elements : string -> option (list Element).

(** The loop of lines 563-570 over the selectors left to try; [posts] is the
    empty list when the loop runs out of selectors. *)
Fixpoint find_from (selectors : list string) : option (list Element) :=
  match selectors with
  | [] => Some []
  | selector :: rest =>
      match find_elements selector with
      | None => None
      | Some [] => find_from rest
      | Some posts => Some posts
      end
  end.

Definition _find_post_elements : option (list Element) := find_from post_containers.
End Find.

End Extraction.

(** ** Patterns that do not tell the case of a letter *)
Module Caseless.
Import Text.

Definition ascii_isalpha (c : N) : bool := ascii_isupper c || ascii_islower c.

(** An atom that matches a character exactly when it matches its lower-case
    form: an exact literal must not be a letter. *)
Definition caseless_atom (a : atom) : bool :=
  match a with
  | Exact c => negb (ascii_isalpha c)
  | Fold _ | Digit | Space => true
  end.

Fixpoint caseless_pattern (r : regex) : bool :=
  match r with
  | Nul | Eps => true
  | Chr a => caseless_atom a
  | Seq r1 r2 | Alt r1 r2 => caseless_pattern r1 && caseless_pattern r2
  | Star r1 => caseless_pattern r1
  end.

(** A literal of pattern text, character by character. *)
Definition lit_chars (w : list N) : regex :=
  foldr (fun c r => Seq (Chr (lit_atom c)) r) Eps w.

End Caseless.

(** ** [src/scrape.py]: how often the page is scrolled *)
Module Scrolling.

(** What may be passed as [max_scroll_attempts]: an [int], a [bool] (which
    is an [int] to [isinstance]), a tuple or list, or any other object, of
    which only the outcome of [int(...)] matters. *)
#[warnings="-register-all"] Inductive pyarg :=
  | PInt (z : Z)
  | PBool (b : bool)
  | PSeq (items : list pyarg)
  | PObj (as_int : Py.exn + Z).

Definition MAX_SCROLL_ATTEMPTS : pyarg := PInt 20.

(** [isinstance(x, int)] *)
Definition is_int (x : pyarg) : bool :=
  match x with
  | PInt _ | PBool _ => true
  | PSeq _ | PObj _ => false
  end.

(** [int(x)] *)
Definition int_of (x : pyarg) : Py.exn + Z :=
  match x with
  | PInt z => inr z
  | PBool b => inr (Z.b2z b)
  | PSeq _ => inl Py.TypeError
  | PObj r => r
  end.

(** The block that lines 104-117, 245-258 and 531-544 repeat, with the value
    each of them falls back to: an [int] is kept; of a non-empty tuple or
    list the first element is converted, outside any [try]; anything else is
    converted, and [ValueError] and [TypeError] give the fallback. *)
Definition normalize (fallback : pyarg) (scroll_attempts : pyarg) : Py.exn + pyarg :=
  if is_int scroll_attempts then inr scroll_attempts
  else
    match scroll_attempts with
    | PSeq (first :: _) =>
        match int_of first with
        | inr z => inr (PInt z)
        | inl e => inl e
        end
    | _ =>
        match int_of scroll_attempts with
        | inr z => inr (PInt z)
        | inl Py.ValueError | inl Py.TypeError => inr fallback
        | inl e => inl e
        end
    end.

(** Lines 103-118: the value [__init__] stores in [self.max_scroll_attempts]. *)
Definition init_max_scroll_attempts (max_scroll_attempts : option pyarg)
    : Py.exn + pyarg :=
  normalize MAX_SCROLL_ATTEMPTS (default MAX_SCROLL_ATTEMPTS max_scroll_attempts).

(** Lines 243-258: the value [scrape_posts] scrolls with. *)
Definition scrape_scroll_attempts (self_max_scroll_attempts : pyarg)
    (max_scroll_attempts : option pyarg) : Py.exn + pyarg :=
  normalize self_max_scroll_attempts
    (default self_max_scroll_attempts max_scroll_attempts).

(** [range(n)] runs [n] times, and not at all for a negative [n]. *)
Definition range_length (n : pyarg) : nat :=
  match n with
  | PInt z => Z.to_nat z
  | PBool b => Nat.b2n b
  | PSeq _ | PObj _ => 0
  end.

(** Lines 521-552: the number of times the page is scrolled, the driver
    raising nothing. *)
Definition _scroll_page (scroll_attempts : pyarg) : Py.exn + nat :=
  match normalize (PInt 20) scroll_attempts with
  | inl e => inl e
  | inr n => inr (range_length n)
  end.

(** [run] (line 422) calls [scrape_posts(self.max_scroll_attempts)], which
    calls [_scroll_page] with the value it has normalized. An exception ends
    the cycle: [scrape_posts] catches it and returns no post. *)
Definition run_scrolls (self_max_scroll_attempts : pyarg) : Py.exn + nat :=
  match scrape_scroll_attempts self_max_scroll_attempts (Some self_max_scroll_attempts) with
  | inl e => inl e
  | inr n => _scroll_page n
  end.

End Scrolling.

(** ** [src/config/settings.py]: the prompt of the hiring classification *)
Module Prompts.
Import Text.

Definition newline : list N := [10].
Definition quote : list N := [34].

(** Lines 81-96. *)
Definition PROMPT_HIRING_POST : list N :=
  str_of "You will be given the content of a LinkedIn post. Analyze the post and determine if it is related to hiring, job postings, or recruitment activities. "
  ++ str_of "A hiring post generally refers to announcements or advertisements about job openings, available positions, recruitment drives, or opportunities that seek candidates. "
  ++ newline ++ newline
  ++ str_of "Instructions:" ++ newline
  ++ str_of "1. Carefully review the LinkedIn post provided." ++ newline
  ++ str_of "2. Decide if it can be considered a hiring/recruitment-related post based on keywords, intent, and context." ++ newline
  ++ str_of "3. Output your result strictly in the following JSON format:" ++ newline
  ++ str_of "{" ++ newline
  ++ str_of "  " ++ quote ++ str_of "classification" ++ quote ++ str_of ": 1 or 0" ++ newline
  ++ str_of "}" ++ newline
  ++ newline ++ str_of "Rules:" ++ newline
  ++ str_of "- Respond with " ++ quote ++ str_of "classification" ++ quote
  ++ str_of ": 1 if the post is a hiring/recruitment post." ++ newline
  ++ str_of "- Respond with " ++ quote ++ str_of "classification" ++ quote
  ++ str_of ": 0 if the post is not related to hiring or recruitment." ++ newline
  ++ str_of "- Do NOT include any explanation, extra text, or context; only reply with the JSON as shown above."
  ++ newline.

End Prompts.

(** ** [src/main.py]: [classify_names] and one iteration of the pipeline *)
Module Pipeline.
Import Main.

Section Names.
Variable backend : nat -> schema -> list N -> Py.value -> option result.

(** Lines 93-99. *)
Fixpoint classify_names_loop (prompt : list N) (items : list ref) : M unit :=
  match items with
  | [] => ret tt
  | post :: rest =>
      let* input := getitem post "profile_name" in
      let* result := inference backend (Some input) (Some prompt) (Some NamesClassification) in
      let* _ := setitem post "names_classification" (classification_value result) in
      classify_names_loop prompt rest
  end.

(** Lines 80-101. *)
Definition classify_names (posts : option (list ref)) (prompt : list N)
    : M (list ref) :=
  match posts with
  | None | Some [] => ret []
  | Some items =>
      let* _ := sleep 10 in
      let* _ := classify_names_loop prompt items in
      ret items
  end.

(** The shape the loops of [classify_jobs] and [classify_names] share: read
    [in_key], ask the model, write [out_key]. *)
Fixpoint annotate_loop (in_key out_key : string) (format : schema)
    (prompt : list N) (items : list ref) : M unit :=
  match items with
  | [] => ret tt
  | post :: rest =>
      let* input := getitem post in_key in
      let* result := inference backend (Some input) (Some prompt) (Some format) in
      let* _ := setitem post out_key (classification_value result) in
      annotate_loop in_key out_key format prompt rest
  end.
End Names.

(** The world after the request for [post], with input [v], has been
    answered with [c] and the answer written under [out_key]. *)
Definition annotated (out_key : string) (w : world) (prompt : list N) (post : ref)
    (v : Py.value) (c : result) : world :=
  {| heap := <[ post := <[ out_key := classification_value c ]> (deref w post) ]> (heap w);
     sent := sent w ++ [ {| Ollama.call_prompt := prompt; Ollama.call_input := v |} ];
     slept := slept w |}.

(** What the exception handler of an iteration logs, or what the iteration
    logs when it ends without one. *)
Inductive iteration_log :=
  | Completed (collected : nat)
  | No_posts
  | Iteration_error (e : Py.exn).

Section Iteration.
Context {File : Type}.
Variable backend : nat -> schema -> list N -> Py.value -> option result.
Variable to_csv_text : dataframe -> File.
Variable read_csv_text : File -> option dataframe.

Record iteration_end := {
  end_world : world;
  end_file : option File;
  end_saved : option (@saved File);
  end_log : iteration_log
}.

(** Lines 167-177 of [run_pipeline], given what [scrape_jobs] did: raise, or
    return the references of the posts it created. [pd.DataFrame(posts)] reads
    the posts as they are when [save_posts_to_csv] is called. *)
Definition iteration (scraped : Py.exn + list ref) (env : @io File)
    (w : world) (file : option File) : iteration_end :=
  match scraped with
  | inl e =>
      {| end_world := w; end_file := file; end_saved := None;
         end_log := Iteration_error e |}
  | inr [] =>
      {| end_world := w; end_file := file; end_saved := None; end_log := No_posts |}
  | inr posts =>
      match classify_jobs backend (Some posts) Prompts.PROMPT_HIRING_POST w with
      | (inl e, w') =>
          {| end_world := w'; end_file := file; end_saved := None;
             end_log := Iteration_error e |}
      | (inr posts', w') =>
          let s := save_posts_to_csv to_csv_text read_csv_text
                     (Some (map (deref w') posts')) env file in
          {| end_world := w'; end_file := store s; end_saved := Some s;
             end_log := Completed (length posts') |}
      end
  end.
End Iteration.

Section Appends.
Context {File : Type}.
Variable to_csv_text : dataframe -> File.
Variable read_csv_text : File -> option dataframe.

(** The state of the file after successive calls of [save_posts_to_csv], one
    per iteration of the pipeline, each with its batch and what the
    environment does to it. *)
Definition save_all (calls : list (list Py.dict * @io File)) (file : option File)
    : option File :=
  fold_left
    (fun f (call : list Py.dict * @io File) =>
       store (save_posts_to_csv to_csv_text read_csv_text (Some call.1) call.2 f))
    calls file.
End Appends.

End Pipeline.

(** ** [src/ollama_setup.py]: [check_device_usage] *)
Module Device.
Import Text.

(** What [subprocess.run(..., capture_output=True, text=True)] returns. *)
Record completed := {
  returncode : Z;
  stdout : list N
}.

(** What the function asks of the machine: [platform.system().lower()], the
    four commands it may run ([None]: the call raises, be it a timeout or a
    missing program), and the variable [OLLAMA_NUM_GPU] ([None]: not set). *)
Record machine := {
  system : string;
  ollama_ps : option completed;
  nvidia_smi : option completed;
  rocm_smi : option completed;
  system_profiler : option completed;
  OLLAMA_NUM_GPU : option (list N)
}.

Definition Unknown : list N := str_of "Unknown".

Section Check.
Variable db : unicode_db.

(** Lines 66-83. *)
Definition method1 (m : machine) : list N :=
  match ollama_ps m with
  | Some result =>
      if (returncode result =? 0)%Z && truthy (stdout result) then
        let output_lower := str_lower db (stdout result) in
        if contains (str_of "cuda") output_lower || contains (str_of "nvidia") output_lower
        then str_of "GPU (CUDA)"
        else if contains (str_of "metal") output_lower then str_of "GPU (Metal)"
        else if contains (str_of "cpu") output_lower
                && contains (str_of "100%") (stdout result)
        then str_of "CPU"
        else Unknown
      else Unknown
  | None => Unknown
  end.

(** Lines 86-138. *)
Definition method2 (m : machine) (device_info : list N) : list N :=
  if bool_decide (device_info = Unknown) then
    if String.eqb (system m) "linux" then
      let device_info :=
        match nvidia_smi m with
        | Some result =>
            if (returncode result =? 0)%Z
               && truthy (Extraction.strip db (stdout result))
            then str_of "GPU (CUDA) - Available"
            else device_info
        | None => device_info
        end in
      match rocm_smi m with
      | Some result =>
          if (returncode result =? 0)%Z then str_of "GPU (ROCm) - Available"
          else device_info
      | None => device_info
      end
    else if String.eqb (system m) "darwin" then
      match system_profiler m with
      | Some result =>
          if (returncode result =? 0)%Z then
            let output := str_lower db (stdout result) in
            if contains (str_of "apple") output || contains (str_of "metal") output
               || contains (str_of "m1") output || contains (str_of "m2") output
               || contains (str_of "m3") output
            then str_of "GPU (Metal) - Available"
            else str_of "CPU - No Metal GPU detected"
          else device_info
      | None => device_info
      end
    else if String.eqb (system m) "windows" then
      str_of "GPU (CUDA) - Likely available (check Task Manager)"
    else device_info
  else device_info.

(** Lines 141-148. *)
Definition method3 (m : machine) (device_info : list N) : list N :=
  if bool_decide (device_info = Unknown) then
    match OLLAMA_NUM_GPU m with
    | Some num_gpu =>
        if truthy num_gpu && negb (bool_decide (num_gpu = str_of "0"))
        then str_of "GPU - " ++ num_gpu ++ str_of " GPU(s) configured"
        else str_of "CPU - No GPU configured"
    | None => device_info
    end
  else device_info.

(** Lines 55-154. *)
Definition check_device_usage (m : machine) : list N :=
  let device_info := method3 m (method2 m (method1 m)) in
  if bool_decide (device_info = Unknown)
  then str_of "CPU - Unable to detect GPU (likely using CPU)"
  else device_info.
End Check.

(** A description that names a device: it starts with "GPU" or with "CPU". *)
Definition names_device (device_info : list N) : bool :=
  is_prefix (str_of "GPU") device_info || is_prefix (str_of "CPU") device_info.

End Device.

(** ** Sample inputs *)
Module Samples.
Import Text.

Definition hiring_text : list N :=
  str_of "We are hiring! 3+ years experience required, apply now".

Definition growth_text : list N :=
  str_of "Check out this opportunity for growth".

Definition resume_text : list N :=
  str_of "send your resume and cv".

(** Two posts on the heap, and a model that answers 1 to its first request
    and 0 to its second. *)
Definition sample_post (content url name : string) : Py.dict :=
  {[ "content"%string := Py.VStr (str_of content);
     "url"%string := Py.VStr (str_of url);
     "profile_name"%string := Py.VStr (str_of name) ]}.

Definition sample_world : Main.world :=
  {| Main.heap :=
       {[ 1%positive := sample_post "We are hiring, apply now" "urn:li:activity:1" "Ada";
          2%positive := sample_post "Happy Friday" "urn:li:activity:2" "Bob" ]};
     Main.sent := [];
     Main.slept := 0 |}.

Definition sample_backend (n : nat) (_ : Main.schema) (_ : list N) (_ : Py.value)
    : option Main.result :=
  Some {| Main.classification := Nat.even n |}.

Definition sample_prompt : list N := str_of "Is this a hiring post?".

(** A store whose file content is the table itself, holding one record, and
    two calls that append a second record to it: in the first the read
    raises, in the second the write raises after truncating the file. *)
Definition ada_post : Py.dict := sample_post "Apply now" "urn:1" "Ada".
Definition bob_post : Py.dict := sample_post "We are hiring" "urn:2" "Bob".

Definition table_to_text (df : list Py.dict) : list Py.dict := df.
Definition text_to_table (text : list Py.dict) : option (list Py.dict) := Some text.

Definition no_fault : @Main.io (list Py.dict) := {| Main.read_raises := false; Main.write := Main.Write_ok |}.



(** A post element with padded text and a two-line actor title, the post
    extracted from it, and a page on which only the second selector finds
    it. *)
Definition ada_element : Extraction.element :=
  {| Extraction.content_text := Some (str_of "  We are hiring  ");
     Extraction.actor_title := Some (str_of "Ada Lovelace" ++ [10] ++ str_of "2nd");
     Extraction.data_urn := Some (str_of "urn:li:activity:1") |}.

Definition ada_extracted : Scrape.post_data :=
  {| Scrape.content := str_of "We are hiring";
     Scrape.url := str_of "https://www.linkedin.com/feed/update/urn:li:activity:1";
     Scrape.profile_name := str_of "Ada Lovelace" |}.

Definition second_selector_page (selector : string) : option (list Extraction.element) :=
  if String.eqb selector "div.update-components-actor" then Some [ada_element]
  else Some [].

(** A scraped post as [is_relevant_post] receives it. *)
Definition hiring_record : gmap string (list N) :=
  {[ "content"%string := hiring_text; "url"%string := str_of "urn:li:activity:7" ]}.

(** A model that answers its first request and fails on every later one. *)
Definition failing_backend (n : nat) (_ : Main.schema) (_ : list N) (_ : Py.value)
    : option Main.result :=
  match n with
  | O => Some {| Main.classification := true |}
  | S _ => None
  end.

(** A reader that, like [pd.read_csv] on a file without any column, raises
    on the empty text. *)
Definition strict_text_to_table (text : list Py.dict) : option (list Py.dict) :=
  match text with
  | [] => None
  | _ => Some text
  end.

(** A Linux machine on which [ollama ps] cannot be run, [nvidia-smi] lists a
    GPU and [rocm-smi] exits with 0. *)
Definition linux_machine : Device.machine :=
  {| Device.system := "linux";
     Device.ollama_ps := None;
     Device.nvidia_smi := Some {| Device.returncode := 0; Device.stdout := str_of "NVIDIA A100" |};
     Device.rocm_smi := Some {| Device.returncode := 0; Device.stdout := [] |};
     Device.system_profiler := None;
     Device.OLLAMA_NUM_GPU := Some (str_of "2") |}.

End Samples.

(** * Properties *)

(** ** The pattern engine *)
Module TextFacts.
Import Text.

Section Engine.
Variable db : unicode_db.

Lemma match_at_Nul (s : list N) : match_at db Nul s = false.
Proof. induction s as [|c s IH]; simpl; auto. Qed.

Lemma match_at_Alt_alt (s : list N) :
  forall r1 r2,
    match_at db (Alt r1 r2) s = match_at db r1 s || match_at db r2 s
    /\ match_at db (alt r1 r2) s = match_at db r1 s || match_at db r2 s.
Proof.
  induction s as [|c s IH]; intros r1 r2.
  - assert (HA : match_at db (Alt r1 r2) [] = match_at db r1 [] || match_at db r2 [])
      by (simpl; destruct (nullable r1), (nullable r2); reflexivity).
    split; [exact HA|].
    destruct r1, r2; simpl; try reflexivity;
      try (rewrite ?orb_false_r; reflexivity).
  - assert (HA : match_at db (Alt r1 r2) (c :: s)
                 = match_at db r1 (c :: s) || match_at db r2 (c :: s)).
    { simpl. rewrite (proj2 (IH _ _)).
      destruct (nullable r1), (nullable r2); simpl; try reflexivity.
      all: destruct (match_at db (deriv db c r1) s); reflexivity. }
    split; [exact HA|].
    destruct r1, r2; try exact HA;
      cbn [alt]; rewrite ?match_at_Nul, ?orb_false_r; reflexivity.
Qed.

Lemma match_at_Alt r1 r2 s :
  match_at db (Alt r1 r2) s = match_at db r1 s || match_at db r2 s.
Proof. apply match_at_Alt_alt. Qed.

Lemma re_search_Nul s : re_search db Nul s = false.
Proof. induction s as [|c s IH]; simpl; auto. rewrite match_at_Nul. exact IH. Qed.

Lemma re_search_Alt r1 r2 s :
  re_search db (Alt r1 r2) s = re_search db r1 s || re_search db r2 s.
Proof.
  induction s as [|c s IH].
  - simpl. destruct (nullable r1), (nullable r2); reflexivity.
  - cbn [re_search]. rewrite IH, match_at_Alt.
    destruct (match_at db r1 (c :: s)), (match_at db r2 (c :: s)),
      (re_search db r1 s), (re_search db r2 s); reflexivity.
Qed.

(** An alternation is found exactly when one of its branches is. *)
Lemma re_search_alts rs s :
  re_search db (alts rs) s = existsb (fun r => re_search db r s) rs.
Proof.
  induction rs as [|r rs IH]; simpl.
  - apply re_search_Nul.
  - rewrite re_search_Alt, IH. reflexivity.
Qed.
End Engine.

Section Semantics.
Variable db : unicode_db.

Lemma matches_Seq_inv r1 r2 s :
  matches db (Seq r1 r2) s ->
  exists s1 s2, s = s1 ++ s2 /\ matches db r1 s1 /\ matches db r2 s2.
Proof. intros H. inversion H; subst. eauto. Qed.

Lemma matches_Alt_inv r1 r2 s :
  matches db (Alt r1 r2) s -> matches db r1 s \/ matches db r2 s.
Proof. intros H. inversion H; subst; auto. Qed.

Lemma nullable_matches r : nullable r = true <-> matches db r [].
Proof.
  induction r as [| |a|r1 IH1 r2 IH2|r1 IH1 r2 IH2|r1 IH1]; simpl.
  - split; [discriminate|]. intros H. inversion H.
  - split; [constructor|reflexivity].
  - split; [discriminate|]. intros H. inversion H.
  - rewrite andb_true_iff, IH1, IH2. split.
    + intros [H1 H2]. apply (matches_Seq db r1 r2 [] [] H1 H2).
    + intros H. apply matches_Seq_inv in H as (s1 & s2 & E & H1 & H2).
      symmetry in E. apply app_eq_nil in E as [-> ->]. auto.
  - rewrite orb_true_iff, IH1, IH2. split.
    + intros [H|H]; [apply matches_Alt_l|apply matches_Alt_r]; exact H.
    + apply matches_Alt_inv.
  - split; [constructor|reflexivity].
Qed.

Lemma matches_seq r1 r2 s : matches db (seq r1 r2) s <-> matches db (Seq r1 r2) s.
Proof.
  destruct r1; simpl; try reflexivity.
  - split; intros H; [inversion H|].
    apply matches_Seq_inv in H as (s1 & s2 & _ & H1 & _). inversion H1.
  - split.
    + intros H. apply (matches_Seq db Eps r2 [] s); [constructor|exact H].
    + intros H. apply matches_Seq_inv in H as (s1 & s2 & -> & H1 & H2).
      inversion H1; subst. exact H2.
Qed.

Lemma matches_alt r1 r2 s : matches db (alt r1 r2) s <-> matches db (Alt r1 r2) s.
Proof.
  assert (HN : forall x, ~ matches db Nul x) by (intros x H; inversion H).
  assert (HL : matches db r2 s <-> matches db (Alt Nul r2) s).
  { split; [apply matches_Alt_r|].
    intros H. apply matches_Alt_inv in H as [H|H]; [exfalso; eapply HN; eauto|auto]. }
  assert (HR : matches db r1 s <-> matches db (Alt r1 Nul) s).
  { split; [apply matches_Alt_l|].
    intros H. apply matches_Alt_inv in H as [H|H]; [auto|exfalso; eapply HN; eauto]. }
  destruct r1, r2; simpl; try reflexivity; try exact HL; try exact HR.
Qed.

Lemma matches_Star_cons r c s :
  matches db (Star r) (c :: s) ->
  exists s1 s2, s = s1 ++ s2 /\ matches db r (c :: s1) /\ matches db (Star r) s2.
Proof.
  intros H. remember (Star r) as r' eqn:Er. remember (c :: s) as s' eqn:Es.
  induction H as [| | | | | |r0 s1 s2 H1 _ H2 IH2]; try discriminate.
  injection Er as ->. destruct s1 as [|c1 s1].
  - apply IH2; [reflexivity|exact Es].
  - cbn in Es. injection Es as -> <-. exists s1, s2. auto.
Qed.

(** The derivative denotes the rest of the strings that start with [c]. *)
Lemma deriv_matches r : forall c s, matches db (deriv db c r) s <-> matches db r (c :: s).
Proof.
  induction r as [| |a|r1 IH1 r2 IH2|r1 IH1 r2 IH2|r1 IH1]; intros c s; simpl.
  - split; intros H; inversion H.
  - split; intros H; inversion H.
  - destruct (atom_matches db a c) eqn:E; split; intros H.
    + inversion H; subst. constructor. exact E.
    + inversion H; subst. constructor.
    + inversion H.
    + inversion H; subst. congruence.
  - assert (Hseq : matches db (Seq (deriv db c r1) r2) s
                   <-> exists s1 s2, s = s1 ++ s2 /\ matches db r1 (c :: s1)
                                     /\ matches db r2 s2).
    { split.
      - intros H. apply matches_Seq_inv in H as (s1 & s2 & -> & H1 & H2).
        exists s1, s2. rewrite <- IH1. auto.
      - intros (s1 & s2 & -> & H1 & H2). constructor; [apply IH1; exact H1|exact H2]. }
    assert (Hsplit : matches db (Seq r1 r2) (c :: s)
                     <-> (matches db r1 [] /\ matches db r2 (c :: s))
                         \/ exists s1 s2, s = s1 ++ s2 /\ matches db r1 (c :: s1)
                                          /\ matches db r2 s2).
    { split.
      - intros H. apply matches_Seq_inv in H as (s1 & s2 & E & H1 & H2).
        destruct s1 as [|c1 s1]; cbn in E.
        + subst. left. auto.
        + injection E as <- ->. right. exists s1, s2. auto.
      - intros [[H1 H2]|(s1 & s2 & -> & H1 & H2)].
        + apply (matches_Seq db r1 r2 [] (c :: s) H1 H2).
        + apply (matches_Seq db r1 r2 (c :: s1) s2 H1 H2). }
    rewrite Hsplit. destruct (nullable r1) eqn:En.
    + rewrite matches_alt. split.
      * intros H. apply matches_Alt_inv in H as [H|H].
        -- right. apply Hseq. apply matches_seq. assumption.
        -- left. split; [apply nullable_matches; exact En|apply IH2; assumption].
      * intros [[_ H2]|H].
        -- apply matches_Alt_r. apply IH2. exact H2.
        -- apply matches_Alt_l. apply matches_seq. apply Hseq. exact H.
    + rewrite matches_seq, Hseq. split; [auto|].
      intros [[H1 _]|H]; [|exact H].
      apply nullable_matches in H1. congruence.
  - rewrite matches_alt. split; intros H; apply matches_Alt_inv in H as [H|H].
    + apply matches_Alt_l. apply IH1. assumption.
    + apply matches_Alt_r. apply IH2. assumption.
    + apply matches_Alt_l. apply IH1. assumption.
    + apply matches_Alt_r. apply IH2. assumption.
  - rewrite matches_seq. split.
    + intros H. apply matches_Seq_inv in H as (s1 & s2 & -> & H1 & H2).
      apply (matches_Star_app db r1 (c :: s1) s2); [apply IH1; exact H1|exact H2].
    + intros H. apply matches_Star_cons in H as (s1 & s2 & -> & H1 & H2).
      constructor; [apply IH1; exact H1|exact H2].
Qed.

(** [match_at] finds the prefixes the pattern denotes. *)
Lemma match_at_spec s : forall r,
  match_at db r s = true <-> exists pre post, s = pre ++ post /\ matches db r pre.
Proof.
  induction s as [|c s IH]; intros r; simpl.
  - rewrite orb_false_r, nullable_matches. split.
    + intros H. exists [], []. auto.
    + intros (pre & post & E & H). symmetry in E.
      apply app_eq_nil in E as [-> ->]. exact H.
  - rewrite orb_true_iff, nullable_matches, IH. split.
    + intros [H|(pre & post & -> & H)].
      * exists [], (c :: s). auto.
      * exists (c :: pre), post. split; [reflexivity|]. apply deriv_matches. exact H.
    + intros (pre & post & E & H). destruct pre as [|c1 pre]; [left; exact H|].
      cbn in E. injection E as <- ->. right. exists pre, post.
      split; [reflexivity|]. apply deriv_matches. exact H.
Qed.

(** [re_search] succeeds exactly when some piece of the text is denoted by
    the pattern. *)
Lemma re_search_spec r s :
  re_search db r s = true
  <-> exists before found after, s = before ++ found ++ after /\ matches db r found.
Proof.
  induction s as [|c s IH]; cbn [re_search].
  - rewrite orb_false_r, match_at_spec. split.
    + intros (pre & post & E & H). exists [], pre, post. auto.
    + intros (b & f & a & E & H). symmetry in E.
      apply app_eq_nil in E as [-> E]. exists f, a. auto.
  - rewrite orb_true_iff, match_at_spec, IH. split.
    + intros [(pre & post & E & H)|(b & f & a & -> & H)].
      * exists [], pre, post. auto.
      * exists (c :: b), f, a. auto.
    + intros (b & f & a & E & H). destruct b as [|c1 b].
      * left. exists f, a. auto.
      * cbn in E. injection E as <- ->. right. exists b, f, a. auto.
Qed.
End Semantics.

Section Ascii.
Variable db : unicode_db.
Hypothesis Hdb : ascii_exact db.

Lemma atom_matches_ascii a c :
  ascii_atom a = true -> c < 128 ->
  atom_matches db a c = atom_matches ascii_db a c.
Proof using Hdb.
  intros Ha Hc. destruct a as [x|p| |]; simpl.
  - reflexivity.
  - rewrite (ax_tolower db Hdb c Hc).
    replace (existsb (N.eqb (ascii_tolower c)) (casefix db p)) with false;
      [reflexivity|].
    symmetry. apply not_true_is_false. intros Hex.
    apply existsb_exists in Hex as (x & Hin & Heq).
    apply N.eqb_eq in Heq. subst x.
    apply (ax_casefix db Hdb p) in Hin; [|apply N.ltb_lt; exact Ha].
    unfold ascii_tolower, ascii_isupper in Hin.
    destruct (65 <=? c) eqn:E1; destruct (c <=? 90) eqn:E2; simpl in Hin;
      try apply N.leb_le in E2; lia.
  - apply (ax_isdecimal db Hdb c Hc).
  - apply (ax_isspace db Hdb c Hc).
Qed.

Lemma ascii_pattern_seq r1 r2 :
  ascii_pattern r1 = true -> ascii_pattern r2 = true ->
  ascii_pattern (seq r1 r2) = true.
Proof.
  intros H1 H2. destruct r1; simpl in *; try rewrite H1; auto.
Qed.

Lemma ascii_pattern_alt r1 r2 :
  ascii_pattern r1 = true -> ascii_pattern r2 = true ->
  ascii_pattern (alt r1 r2) = true.
Proof.
  intros H1 H2. destruct r1, r2; simpl in *; try rewrite H1; auto.
Qed.

Lemma deriv_ascii c r :
  ascii_pattern r = true -> c < 128 ->
  deriv db c r = deriv ascii_db c r /\ ascii_pattern (deriv ascii_db c r) = true.
Proof using Hdb.
  intros Hr Hc. induction r as [| |a|r1 IH1 r2 IH2|r1 IH1 r2 IH2|r1 IH1]; simpl in *.
  - auto.
  - auto.
  - rewrite (atom_matches_ascii a c Hr Hc).
    destruct (atom_matches ascii_db a c); auto.
  - apply andb_true_iff in Hr as [Hr1 Hr2].
    destruct (IH1 Hr1) as [E1 P1], (IH2 Hr2) as [E2 P2]. rewrite E1, E2.
    split; [reflexivity|].
    destruct (nullable r1);
      auto using ascii_pattern_alt, ascii_pattern_seq.
  - apply andb_true_iff in Hr as [Hr1 Hr2].
    destruct (IH1 Hr1) as [E1 P1], (IH2 Hr2) as [E2 P2]. rewrite E1, E2.
    auto using ascii_pattern_alt.
  - destruct (IH1 Hr) as [E1 P1]. rewrite E1.
    auto using ascii_pattern_seq.
Qed.

Lemma match_at_ascii s :
  Forall (fun c => c < 128) s ->
  forall r, ascii_pattern r = true -> match_at db r s = match_at ascii_db r s.
Proof using Hdb.
  induction 1 as [|c s Hc Hs IH]; intros r Hr; simpl; [reflexivity|].
  destruct (deriv_ascii c r Hr Hc) as [E P]. rewrite E, (IH _ P). reflexivity.
Qed.

(** On ASCII text an ASCII pattern is found or not whatever the tables say
    about the rest of Unicode. *)
Lemma re_search_ascii r s :
  ascii_pattern r = true -> Forall (fun c => c < 128) s ->
  re_search db r s = re_search ascii_db r s.
Proof using Hdb.
  intros Hr Hs. induction Hs as [|c s Hc Hs IH]; [reflexivity|].
  cbn [re_search]. rewrite IH, (match_at_ascii (c :: s)); auto.
Qed.

Lemma str_lower_ascii s :
  Forall (fun c => c < 128) s -> str_lower db s = str_lower ascii_db s.
Proof using Hdb. intros Hs. apply (ax_str_lower db Hdb s Hs). Qed.
End Ascii.

Lemma ascii_db_exact : ascii_exact ascii_db.
Proof.
  split; simpl; intros; try reflexivity. contradiction.
Qed.

End TextFacts.

(** ** The heuristic filter *)
Module FilterFacts.
Import Text Scrape Samples TextFacts.

Section Filter.
Variable db : unicode_db.

Lemma job_pattern_not_in_empty : re_search db job_pattern [] = false.
Proof. reflexivity. Qed.

Lemma indicators_sum content :
  indicators db content =
  sum_bools
    [ has_requirements db content; has_experience db content;
      has_apply_action db content; in_lower db "resume" content;
      in_lower db "cv" content; in_lower db "position" content;
      in_lower db "role" content ].
Proof. reflexivity. Qed.

Lemma count_indicators_probes content :
  snd (count_indicators db content) =
  [ Search_requirements; Search_experience; Search_apply_action; Lower;
    Contains "resume"; Contains "cv"; Contains "position"; Contains "role" ].
Proof. reflexivity. Qed.

(** Past the gate the answer is the comparison of the count with 2. *)
Lemma is_job_post_scored content :
  re_search db job_pattern content = true ->
  is_job_post db content = (2 <=? indicators db content)%nat.
Proof.
  intros Hgate. destruct content as [|c s].
  - rewrite job_pattern_not_in_empty in Hgate. discriminate.
  - unfold is_job_post, is_job_post_w, indicators.
    cbn [truthy negb]. unfold probing at 1. cbn [bind].
    rewrite Hgate. cbn [negb].
    destruct (count_indicators db (c :: s)) as [n l]. reflexivity.
Qed.

(** C1: for every content that passes the keyword gate, [is_job_post]
    returns true if and only if at least 2 of the seven indicators
    (requirements, experience, apply action, "resume", "cv", "position",
    "role") are true; with fewer than 2 it returns false and with exactly 2
    it returns true. *)
Theorem is_job_post_iff_two_indicators content :
  re_search db job_pattern content = true ->
  indicators db content =
    sum_bools
      [ has_requirements db content; has_experience db content;
        has_apply_action db content; in_lower db "resume" content;
        in_lower db "cv" content; in_lower db "position" content;
        in_lower db "role" content ]
  /\ (is_job_post db content = true <-> (2 <= indicators db content)%nat)
  /\ ((indicators db content < 2)%nat -> is_job_post db content = false)
  /\ (indicators db content = 2%nat -> is_job_post db content = true).
Proof.
  intros Hgate. rewrite (is_job_post_scored content Hgate).
  split; [apply indicators_sum|]. repeat split.
  - intros H. apply Nat.leb_le. exact H.
  - intros H. apply Nat.leb_le. exact H.
  - intros H. apply Nat.leb_gt. exact H.
  - intros H. rewrite H. reflexivity.
Qed.

Lemma job_pattern_none content :
  (forall kw, In kw Settings.JOB_KEYWORDS ->
              re_search db (lit kw) content = false) ->
  re_search db job_pattern content = false.
Proof.
  intros Hnone. unfold job_pattern. rewrite re_search_alts.
  apply not_true_is_false. intros Hex.
  apply existsb_exists in Hex as (r & Hin & Hr).
  apply in_map_iff in Hin as (kw & <- & Hkw).
  rewrite (Hnone kw Hkw) in Hr. discriminate.
Qed.

(** C2: for every content that is empty or in which none of the job
    keywords is found, [is_job_post] returns false, and it does so before
    any evaluation of the scoring stage: nothing is evaluated for the empty
    content, and only the gate's search otherwise. *)
Theorem is_job_post_gate_fails_closed content :
  content = [] \/
  (forall kw, In kw Settings.JOB_KEYWORDS ->
              re_search db (lit kw) content = false) ->
  is_job_post db content = false
  /\ probes db content = (if truthy content then [Search_job_pattern] else [])
  /\ Forall (fun p => stage2_probe p = false) (probes db content).
Proof.
  intros H.
  assert (Hw : is_job_post_w db content
               = (false, if truthy content then [Search_job_pattern] else [])).
  { destruct content as [|c s]; [reflexivity|].
    destruct H as [H|H]; [discriminate|].
    unfold is_job_post_w. cbn [truthy negb]. unfold probing at 1. cbn [bind].
    rewrite (job_pattern_none _ H). reflexivity. }
  unfold is_job_post, probes. rewrite Hw. cbn [fst snd].
  repeat split. destruct (truthy content); repeat constructor.
Qed.
End Filter.

Lemma all_ascii (s : list N) :
  forallb is_ascii s = true -> Forall (fun c => c < 128) s.
Proof.
  induction s as [|c s IH]; simpl; intros H; constructor.
  - apply N.ltb_lt. apply andb_true_iff in H. apply H.
  - apply IH. apply andb_true_iff in H. apply H.
Qed.

(** C3, as the code has it: for "Check out this opportunity for growth" the
    keyword gate matches (the keyword "opportunity" alone is found), exactly
    one of the seven indicators is present, the apply action, through
    "opportunity", so the count is 1, and [is_job_post] returns false. *)
Theorem growth_text_one_indicator (db : unicode_db) :
  ascii_exact db ->
  re_search db job_pattern growth_text = true
  /\ re_search db (lit "opportunity") growth_text = true
  /\ has_requirements db growth_text = false
  /\ has_experience db growth_text = false
  /\ has_apply_action db growth_text = true
  /\ in_lower db "resume" growth_text = false
  /\ in_lower db "cv" growth_text = false
  /\ in_lower db "position" growth_text = false
  /\ in_lower db "role" growth_text = false
  /\ indicators db growth_text = 1%nat
  /\ is_job_post db growth_text = false.
Proof.
  intros Hdb.
  assert (Hs : Forall (fun c => c < 128) growth_text)
    by (apply all_ascii; vm_compute; reflexivity).
  assert (Hgate : re_search db job_pattern growth_text = true).
  { rewrite (re_search_ascii db Hdb); [|vm_compute; reflexivity|exact Hs].
    vm_compute; reflexivity. }
  assert (H1 : has_requirements db growth_text = false).
  { unfold has_requirements.
    rewrite (re_search_ascii db Hdb); [|vm_compute; reflexivity|exact Hs].
    vm_compute; reflexivity. }
  assert (H2 : has_experience db growth_text = false).
  { unfold has_experience.
    rewrite (re_search_ascii db Hdb); [|vm_compute; reflexivity|exact Hs].
    vm_compute; reflexivity. }
  assert (H3 : has_apply_action db growth_text = true).
  { unfold has_apply_action.
    rewrite (re_search_ascii db Hdb); [|vm_compute; reflexivity|exact Hs].
    vm_compute; reflexivity. }
  assert (HL : forall w, in_lower db w growth_text = in_lower ascii_db w growth_text).
  { intros w. unfold in_lower. rewrite (str_lower_ascii db Hdb _ Hs). reflexivity. }
  assert (Hn : indicators db growth_text = 1%nat).
  { rewrite indicators_sum, H1, H2, H3, !HL. vm_compute; reflexivity. }
  split; [exact Hgate|].
  split; [rewrite (re_search_ascii db Hdb); [|vm_compute; reflexivity|exact Hs];
          vm_compute; reflexivity|].
  rewrite H1, H2, H3, !HL, Hn, (is_job_post_scored db _ Hgate), Hn.
  repeat split; vm_compute; reflexivity.
Qed.

Lemma is_job_post_iff_two_indicators_witness :
  re_search ascii_db job_pattern hiring_text = true
  /\ indicators ascii_db hiring_text = 2%nat
  /\ (is_job_post ascii_db hiring_text = true
      <-> (2 <= indicators ascii_db hiring_text)%nat).
Proof.
  assert (Hgate : re_search ascii_db job_pattern hiring_text = true)
    by (vm_compute; reflexivity).
  split; [exact Hgate|]. split; [vm_compute; reflexivity|].
  exact (proj1 (proj2 (is_job_post_iff_two_indicators ascii_db hiring_text Hgate))).
Defined.

Lemma is_job_post_gate_fails_closed_witness :
  (forall kw, In kw Settings.JOB_KEYWORDS ->
              re_search ascii_db (lit kw) resume_text = false)
  /\ is_job_post ascii_db resume_text = false
  /\ probes ascii_db resume_text = [Search_job_pattern].
Proof.
  assert (Hnone : forall kw, In kw Settings.JOB_KEYWORDS ->
                    re_search ascii_db (lit kw) resume_text = false).
  { intros kw Hin. simpl in Hin.
    repeat (destruct Hin as [<-|Hin]; [vm_compute; reflexivity|]).
    destruct Hin. }
  split; [exact Hnone|].
  destruct (is_job_post_gate_fails_closed ascii_db resume_text (or_intror Hnone))
    as (Hres & Hprobes & _).
  split; [exact Hres|exact Hprobes].
Defined.

(** The gate decides before the score: this text has three indicators
    ("send", "resume", "cv") and is still rejected. *)
Example resume_text_rejected_with_three_indicators :
  indicators ascii_db resume_text = 3%nat
  /\ is_job_post ascii_db resume_text = false.
Proof. vm_compute. split; reflexivity. Qed.

Lemma growth_text_one_indicator_witness :
  ascii_exact ascii_db
  /\ has_apply_action ascii_db growth_text = true
  /\ indicators ascii_db growth_text = 1%nat
  /\ is_job_post ascii_db growth_text = false.
Proof.
  split; [exact ascii_db_exact|].
  destruct (growth_text_one_indicator ascii_db ascii_db_exact)
    as (_ & _ & _ & _ & Happly & _ & _ & _ & _ & Hn & Hres).
  split; [exact Happly|]. split; [exact Hn|exact Hres].
Defined.

(** C3 as stated fails: the apply-action indicator is present and the count
    is 1, not 0. *)
Lemma growth_text_count_is_not_zero :
  has_apply_action ascii_db growth_text = true
  /\ indicators ascii_db growth_text = 1%nat.
Proof. vm_compute. split; reflexivity. Qed.

End FilterFacts.

(** ** The deduplication loop *)
Module DedupFacts.
Import Scrape.

Lemma scrape_loop_snoc (cs : list (option post_data)) (c : option post_data) :
  scrape_loop (cs ++ [c]) = scrape_step (scrape_loop cs) c.
Proof. unfold scrape_loop. rewrite fold_left_app. reflexivity. Qed.

(** What one iteration does, case by case. *)
Lemma scrape_step_cases (st : cycle) (c : option post_data) :
  match c with
  | None => scrape_step st c = st
  | Some p =>
      (url p ∈ processed_urls st -> scrape_step st c = st)
      /\ (url p ∉ processed_urls st ->
          processed_urls (scrape_step st c) = processed_urls st ∪ {[ url p ]}
          /\ fetched_posts (scrape_step st c) = fetched_posts st ++ [p])
  end.
Proof.
  destruct c as [p|]; [|reflexivity]. unfold scrape_step.
  split; intros H.
  - rewrite bool_decide_eq_true_2 by exact H. reflexivity.
  - rewrite bool_decide_eq_false_2 by exact H. split; reflexivity.
Qed.

Lemma scrape_loop_invariant (cs : list (option post_data)) :
  let st := scrape_loop cs in
  (forall u, u ∈ processed_urls st <-> exists p, p ∈ fetched_posts st /\ url p = u)
  /\ (forall j q, cs !! j = Some (Some q) -> url q ∈ processed_urls st)
  /\ NoDup (url <$> fetched_posts st)
  /\ fetched_posts st `sublist_of` omap id cs
  /\ (forall p, p ∈ fetched_posts st <-> exists i, first_with_url cs i p).
Proof.
  induction cs as [|c cs IH] using rev_ind.
  - cbn. repeat split.
    + intros Hu. set_solver.
    + intros (p & Hp & _). inversion Hp.
    + intros j q Hj. destruct j; discriminate.
    + constructor.
    + constructor.
    + intros Hp. inversion Hp.
    + intros (i & Hi & _). destruct i; discriminate.
  - cbn zeta in *. rewrite scrape_loop_snoc.
    destruct IH as (Hseen & Hall & Hnd & Hsub & Hmem).
    set (st := scrape_loop cs) in *.
    assert (Hlook : forall j, (j < length cs)%nat -> (cs ++ [c]) !! j = cs !! j)
      by (intros j Hj; apply lookup_app_l; exact Hj).
    assert (Hold : forall p, (exists i, first_with_url cs i p) ->
                             exists i, first_with_url (cs ++ [c]) i p).
    { intros p (i & Hi & Hfirst). exists i. split.
      - rewrite Hlook; [exact Hi|]. apply lookup_lt_Some in Hi. exact Hi.
      - intros j q Hj Hq. apply (Hfirst j q Hj).
        rewrite <- Hlook; [exact Hq|]. apply lookup_lt_Some in Hi. lia. }
    assert (Hback : forall i p, first_with_url (cs ++ [c]) i p ->
                      (i < length cs)%nat -> first_with_url cs i p).
    { intros i p (Hi & Hfirst) Hlt. split.
      - rewrite <- Hlook; [exact Hi|exact Hlt].
      - intros j q Hj Hq. apply (Hfirst j q Hj). rewrite Hlook; [exact Hq|lia]. }
    assert (Hlast : forall i p, (cs ++ [c]) !! i = Some (Some p) ->
                      (i < length cs)%nat \/ (i = length cs /\ c = Some p)).
    { intros i p Hi. destruct (decide (i < length cs)%nat) as [Hlt|Hge]; [left; exact Hlt|].
      right. rewrite lookup_app_r in Hi by lia.
      destruct (i - length cs)%nat as [|k] eqn:E; [|destruct k; discriminate].
      cbn in Hi. split; [lia|congruence]. }
    rewrite omap_app.
    destruct c as [p0|]; cbn [scrape_step].
    + destruct (bool_decide (url p0 ∈ processed_urls st)) eqn:Hdec.
      * apply bool_decide_eq_true_1 in Hdec.
        split; [exact Hseen|]. split.
        { intros j q Hj. destruct (Hlast j q Hj) as [Hlt|[_ Heq]].
          - apply (Hall j q). rewrite <- Hlook; [exact Hj|exact Hlt].
          - injection Heq as <-. exact Hdec. }
        split; [exact Hnd|]. split.
        { cbn. apply sublist_inserts_r. exact Hsub. }
        intros p. split.
        { intros Hp. apply Hold, Hmem, Hp. }
        intros (i & Hfw). destruct (Hlast i p (proj1 Hfw)) as [Hlt|[Hi Heq]].
        { apply Hmem. exists i. apply Hback; [exact Hfw|exact Hlt]. }
        exfalso. injection Heq as ->.
        apply Hseen in Hdec as (q & Hq & Hurl).
        apply Hmem in Hq as (j & Hj & _).
        destruct Hfw as [_ Hfirst].
        apply (Hfirst j q); [apply lookup_lt_Some in Hj; lia| |exact Hurl].
        rewrite Hlook; [exact Hj|]. apply lookup_lt_Some in Hj. exact Hj.
      * apply bool_decide_eq_false_1 in Hdec. cbn [processed_urls fetched_posts].
        split.
        { intros u. rewrite elem_of_union, elem_of_singleton, Hseen. split.
          - intros [(p & Hp & Hu)| ->].
            + exists p. split; [apply elem_of_app; left; exact Hp|exact Hu].
            + exists p0. split; [apply elem_of_app; right; constructor|reflexivity].
          - intros (p & Hp & Hu). apply elem_of_app in Hp as [Hp|Hp].
            + left. exists p. split; [exact Hp|exact Hu].
            + right. apply list_elem_of_singleton in Hp. subst p. symmetry. exact Hu. }
        split.
        { intros j q Hj. rewrite elem_of_union, elem_of_singleton.
          destruct (Hlast j q Hj) as [Hlt|[_ Heq]].
          - left. apply (Hall j q). rewrite <- Hlook; [exact Hj|exact Hlt].
          - right. injection Heq as <-. reflexivity. }
        split.
        { rewrite fmap_app. apply NoDup_app. split; [exact Hnd|]. split.
          - intros u Hu Hu'. cbn in Hu'. apply list_elem_of_singleton in Hu'. subst u.
            apply Hdec. apply Hseen.
            apply list_elem_of_fmap in Hu as (q & Hq & Hin). exists q. split; [exact Hin|].
            symmetry. exact Hq.
          - cbn. apply NoDup_singleton. }
        split.
        { cbn. apply sublist_app; [exact Hsub|reflexivity]. }
        intros p. rewrite elem_of_app. split.
        { intros [Hp|Hp].
          - apply Hold, Hmem, Hp.
          - apply list_elem_of_singleton in Hp. subst p. exists (length cs). split.
            + rewrite lookup_app_r by lia. rewrite Nat.sub_diag. reflexivity.
            + intros j q Hj Hq Hurl. apply Hdec. rewrite <- Hurl.
              apply (Hall j q). rewrite <- Hlook; [exact Hq|exact Hj]. }
        intros (i & Hfw). destruct (Hlast i p (proj1 Hfw)) as [Hlt|[Hi Heq]].
        { left. apply Hmem. exists i. apply Hback; [exact Hfw|exact Hlt]. }
        right. injection Heq as ->. constructor.
    + split; [exact Hseen|]. split.
      { intros j q Hj. destruct (Hlast j q Hj) as [Hlt|[_ Heq]]; [|discriminate].
        apply (Hall j q). rewrite <- Hlook; [exact Hj|exact Hlt]. }
      split; [exact Hnd|]. split.
      { cbn. rewrite app_nil_r. exact Hsub. }
      intros p. split.
      { intros Hp. apply Hold, Hmem, Hp. }
      intros (i & Hfw). destruct (Hlast i p (proj1 Hfw)) as [Hlt|[_ Heq]]; [|discriminate].
      apply Hmem. exists i. apply Hback; [exact Hfw|exact Hlt].
Qed.

Lemma filter_url_unique (l : list post_data) (p : post_data) :
  NoDup (url <$> l) -> p ∈ l -> filter (fun q => url q = url p) l = [p].
Proof.
  induction l as [|q l IH]; intros Hnd Hp; [inversion Hp|].
  cbn in Hnd. apply NoDup_cons in Hnd as [Hq Hnd].
  assert (Hnone : forall r, url r ∉ (url <$> l) -> filter (fun q => url q = url r) l = []).
  { intros r Hr. clear -Hr. induction l as [|x l IHl]; [reflexivity|].
    cbn in Hr. apply not_elem_of_cons in Hr as [Hne Hr].
    rewrite filter_cons_False by (intros E; apply Hne; symmetry; exact E).
    apply IHl, Hr. }
  apply elem_of_cons in Hp as [->|Hp].
  - rewrite filter_cons_True by reflexivity. rewrite (Hnone q Hq). reflexivity.
  - rewrite filter_cons_False.
    + apply IH; [exact Hnd|exact Hp].
    + intros E. apply Hq. rewrite E. apply list_elem_of_fmap. exists p. split; [reflexivity|exact Hp].
Qed.

(** C4: the loop handles the candidates in order; a candidate that is
    [None] or whose url is already registered leaves the state as it is, and
    any other candidate has its url registered and is appended. The output
    keeps the candidates' order and holds exactly the first occurrences of the
    urls: of two candidates with the same url exactly one record is retained,
    their first occurrence. *)
Theorem scrape_loop_first_occurrence_wins (cs : list (option post_data)) :
  (forall k c, cs !! k = Some c ->
     let before := scrape_loop (take k cs) in
     let after := scrape_loop (take (S k) cs) in
     match c with
     | None => after = before
     | Some p =>
         (url p ∈ processed_urls before -> after = before)
         /\ (url p ∉ processed_urls before ->
             processed_urls after = processed_urls before ∪ {[ url p ]}
             /\ fetched_posts after = fetched_posts before ++ [p])
     end)
  /\ scrape_posts cs = fetched_posts (scrape_loop cs)
  /\ fetched_posts (scrape_loop cs) `sublist_of` omap id cs
  /\ (forall p, p ∈ fetched_posts (scrape_loop cs) <-> exists i, first_with_url cs i p)
  /\ (forall i j p1 p2, (i < j)%nat ->
        cs !! i = Some (Some p1) -> cs !! j = Some (Some p2) -> url p1 = url p2 ->
        exists k p, (k <= i)%nat /\ first_with_url cs k p /\ url p = url p1
          /\ filter (fun q => url q = url p1) (fetched_posts (scrape_loop cs)) = [p]).
Proof.
  destruct (scrape_loop_invariant cs) as (Hseen & Hall & Hnd & Hsub & Hmem).
  split.
  { intros k c Hk before after. subst before after.
    rewrite (take_S_r cs k c Hk), scrape_loop_snoc.
    apply scrape_step_cases. }
  split; [destruct cs; reflexivity|].
  split; [exact Hsub|]. split; [exact Hmem|].
  intros i j p1 p2 Hij Hi Hj Hurl.
  pose proof (Hall i p1 Hi) as Hin.
  apply Hseen in Hin as (p & Hp & Hu).
  pose proof Hp as Hfw. apply Hmem in Hfw as (k & Hfw).
  exists k, p. split.
  { destruct (decide (k <= i)%nat) as [Hle|Hgt]; [exact Hle|].
    exfalso. destruct Hfw as [_ Hfirst]. apply (Hfirst i p1); [lia|exact Hi|].
    symmetry. exact Hu. }
  split; [exact Hfw|]. split; [exact Hu|].
  rewrite <- Hu. apply filter_url_unique; [exact Hnd|exact Hp].
Qed.

(** Two candidates with one url, and a failed extraction between them. *)
Example scrape_loop_duplicate_dropped (p1 p2 : post_data) :
  url p1 = url p2 ->
  scrape_posts [Some p1; None; Some p2] = [p1].
Proof.
  intros Hurl.
  assert (H1 : scrape_step cycle_start (Some p1)
               = {| processed_urls := ∅ ∪ {[ url p1 ]}; fetched_posts := [p1] |}).
  { unfold scrape_step. rewrite bool_decide_eq_false_2; [reflexivity|].
    cbn [cycle_start processed_urls]. set_solver. }
  change (fetched_posts
            (scrape_step (scrape_step (scrape_step cycle_start (Some p1)) None) (Some p2))
          = [p1]).
  rewrite H1. cbn [scrape_step]. rewrite bool_decide_eq_true_2; [reflexivity|].
  cbn [processed_urls]. rewrite Hurl. set_solver.
Qed.

End DedupFacts.

(** ** [save_to_csv] *)
Module SaveToCsvFacts.
Import Scrape.

(** [settings.py] defines the name, but the import list of [scrape.py] does
    not bring it in. *)
Lemma CSV_FIELDNAMES_unbound :
  load_global "CSV_FIELDNAMES" = inl (Py.NameError "CSV_FIELDNAMES").
Proof. vm_compute. reflexivity. Qed.

Lemma csv_bound : load_global "csv" = inr Object.
Proof. vm_compute. reflexivity. Qed.

(** C10, as the code has it: [save_to_csv] never completes and never writes
    a row. When the file can be opened for appending the call raises
    [NameError] for [CSV_FIELDNAMES], after the file has been created empty if
    it was absent; when it cannot be opened the error of [open] is raised
    instead and the files are untouched. *)
Theorem save_to_csv_never_completes (can_open : string -> bool)
    (posts : list Py.dict) (filename : string) (fs : files) :
  let out := save_to_csv can_open posts filename fs in
  (exists e, out.1 = inl e)
  /\ (forall f, default [] (out.2 !! f) = default [] (fs !! f))
  /\ (if bool_decide (filename = ""%string) then out = (inl Py.FileNotFoundError, fs)
      else if can_open filename then
        out.1 = inl (Py.NameError "CSV_FIELDNAMES")
        /\ out.2 = match fs !! filename with
                   | Some _ => fs
                   | None => <[ filename := [] ]> fs
                   end
      else out = (inl Py.OSError, fs)).
Proof.
  cbn zeta. unfold save_to_csv, open_append.
  destruct (bool_decide (filename = ""%string)).
  { cbn. split; [eauto|]. split; [reflexivity|reflexivity]. }
  destruct (can_open filename).
  2: { cbn. split; [eauto|]. split; [reflexivity|reflexivity]. }
  rewrite csv_bound, CSV_FIELDNAMES_unbound. cbn [fst snd].
  split; [eauto|]. split; [|split; reflexivity].
  intros f. destruct (fs !! filename) as [rows|] eqn:E; [reflexivity|].
  destruct (decide (f = filename)) as [->|Hne].
  - rewrite lookup_insert_eq, E. reflexivity.
  - rewrite lookup_insert_ne by congruence. reflexivity.
Qed.

(** C10 as stated fails: for the empty file name the call raises the error
    of [open], not [NameError]. *)
Lemma save_to_csv_empty_filename :
  (save_to_csv (fun _ => true) [] "" ∅).1 = inl Py.FileNotFoundError.
Proof. reflexivity. Qed.

(** An openable, absent file: [NameError], and the file now exists, empty. *)
Example save_to_csv_creates_empty_file :
  save_to_csv (fun _ => true) [] "jobs.csv" ∅
  = (inl (Py.NameError "CSV_FIELDNAMES"), {[ "jobs.csv"%string := [] ]}).
Proof. vm_compute. reflexivity. Qed.

End SaveToCsvFacts.

(** ** [inference] *)
Module InferenceFacts.
Import Ollama.

Section Inference.
Context {Schema Result : Type}.
Variable backend : nat -> Schema -> list N -> Py.value -> option Result.

(** C9: [inference] raises the invalid-argument error exactly when one of
    [input], [prompt] and [format] is missing or empty, and then no request is
    sent to the model; when all three are present and non-empty the request
    is sent, once, and no such error is raised. *)
Theorem inference_invalid_argument_iff (input : option Py.value)
    (prompt : option (list N)) (format : option Schema) (sent : list call) :
  let out := inference backend input prompt format sent in
  (out.1 = inl Py.InvalidArgument
   <-> falsy_input input || falsy_prompt prompt || falsy_format format = true)
  /\ (out.1 = inl Py.InvalidArgument -> out.2 = sent)
  /\ (falsy_input input || falsy_prompt prompt || falsy_format format = false ->
      exists i p f,
        input = Some i /\ prompt = Some p /\ format = Some f
        /\ out.2 = sent ++ [ {| call_prompt := p; call_input := i |} ]
        /\ out.1 = match backend (length sent) f p i with
                   | Some response => inr response
                   | None => inl Py.InferenceFailure
                   end).
Proof.
  cbn zeta. unfold inference, falsy_input, falsy_prompt, falsy_format.
  destruct input as [i|], prompt as [p|], format as [f|]; cbn [fst snd];
    rewrite ?orb_true_r, ?orb_false_r; cbn [orb];
    try (split; [split; reflexivity|split; [reflexivity|discriminate]]).
  destruct (negb (Py.truthy i) || negb (Text.truthy p)) eqn:E; cbn [fst snd].
  - split; [split; reflexivity|]. split; [reflexivity|discriminate].
  - split.
    { split; [|discriminate]. destruct (backend (length sent) f p i); discriminate. }
    split.
    { destruct (backend (length sent) f p i); discriminate. }
    intros _. exists i, p, f.
    destruct (backend (length sent) f p i); repeat split.
Qed.
End Inference.

(** The empty input, the empty prompt and the absent format, each alone. *)
Example inference_rejects_each_missing_argument
    (backend : nat -> unit -> list N -> Py.value -> option bool) :
  (inference backend (Some (Py.VStr [])) (Some (Text.str_of "p")) (Some tt) []).1
    = inl Py.InvalidArgument
  /\ (inference backend (Some (Py.VStr (Text.str_of "x"))) (Some []) (Some tt) []).1
    = inl Py.InvalidArgument
  /\ (inference backend (Some (Py.VStr (Text.str_of "x"))) (Some (Text.str_of "p")) None []).1
    = inl Py.InvalidArgument.
Proof. repeat split. Qed.

End InferenceFacts.

(** ** [classify_jobs] *)
Module ClassifyFacts.
Import Main.
Local Open Scope nat_scope.

Section Classify.
Variable backend : nat -> schema -> list N -> Py.value -> option result.

(** C5: for an absent or an empty list of posts [classify_jobs] returns an
    empty list and leaves the world as it is: no request reaches the model
    and nothing sleeps. *)
Theorem classify_jobs_nothing_to_classify (prompt : list N) (w : world) :
  classify_jobs backend None prompt w = (inr [], w)
  /\ classify_jobs backend (Some []) prompt w = (inr [], w)
  /\ sent (classify_jobs backend None prompt w).2 = sent w
  /\ sent (classify_jobs backend (Some []) prompt w).2 = sent w.
Proof. repeat split. Qed.

(** The world after one iteration on [post] that the model answered with
    [c]. *)
Lemma classify_loop_cons (prompt : list N) (post : ref) (rest : list ref)
    (w : world) (v : Py.value) (c : result) :
  deref w post !! "content"%string = Some v ->
  Py.truthy v = true -> Text.truthy prompt = true ->
  backend (length (sent w)) HiringPost prompt v = Some c ->
  classify_loop backend prompt (post :: rest) w =
  classify_loop backend prompt rest
    {| heap := <[ post := <[ "hiring_post"%string := classification_value c ]> (deref w post) ]> (heap w);
       sent := sent w ++ [ {| Ollama.call_prompt := prompt; Ollama.call_input := v |} ];
       slept := slept w |}.
Proof.
  intros Hv Htv Htp Hc. cbn [classify_loop]. unfold bind at 1, getitem at 1.
  rewrite Hv. unfold bind at 1, inference at 1, Ollama.inference.
  rewrite Htv, Htp. cbn [negb orb]. rewrite Hc. reflexivity.
Qed.

Lemma deref_insert_same (h : gmap ref Py.dict) (d : Py.dict) (r : ref) s n :
  deref {| heap := <[ r := d ]> h; sent := s; slept := n |} r = d.
Proof. unfold deref. cbn. rewrite lookup_insert_eq. reflexivity. Qed.

Lemma deref_insert_other (h : gmap ref Py.dict) (d : Py.dict) (r r' : ref) s n w :
  r <> r' -> heap w = h ->
  deref {| heap := <[ r := d ]> h; sent := s; slept := n |} r' = deref w r'.
Proof. intros Hne <-. unfold deref. cbn. rewrite lookup_insert_ne by exact Hne. reflexivity. Qed.

(** The loop, when every request is answered: one request per item, only
    [hiring_post] written, and the last request for an object decides its
    value. *)
Lemma classify_loop_spec (prompt : list N) (items : list ref) :
  Text.truthy prompt = true ->
  forall w,
  (forall j l, items !! j = Some l ->
     exists v c, deref w l !! "content"%string = Some v /\ Py.truthy v = true
       /\ backend (length (sent w) + j) HiringPost prompt v = Some c) ->
  exists w',
    classify_loop backend prompt items w = (inr tt, w')
    /\ slept w' = slept w
    /\ length (sent w') = length (sent w) + length items
    /\ (forall l, l ∉ items -> heap w' !! l = heap w !! l)
    /\ (forall l key, key <> "hiring_post"%string -> deref w' l !! key = deref w l !! key)
    /\ (forall j l, items !! j = Some l ->
          (forall j', j < j' -> items !! j' <> Some l) ->
          exists v c, deref w l !! "content"%string = Some v
            /\ backend (length (sent w) + j) HiringPost prompt v = Some c
            /\ deref w' l !! "hiring_post"%string = Some (classification_value c)).
Proof.
  intros Htp. induction items as [|post rest IH]; intros w Hok.
  - exists w. cbn. repeat split; try lia.
    intros j l Hj. destruct j; discriminate.
  - destruct (Hok 0 post eq_refl) as (v & c & Hv & Htv & Hc).
    rewrite Nat.add_0_r in Hc.
    rewrite (classify_loop_cons prompt post rest w v c Hv Htv Htp Hc).
    set (w1 := {| heap := _; sent := _; slept := _ |}).
    assert (Hkeep : forall l key, key <> "hiring_post"%string ->
                      deref w1 l !! key = deref w l !! key).
    { intros l key Hkey. destruct (decide (post = l)) as [->|Hne].
      - unfold w1. rewrite deref_insert_same, lookup_insert_ne by congruence. reflexivity.
      - unfold w1. rewrite (deref_insert_other _ _ post l _ _ w Hne eq_refl). reflexivity. }
    assert (Hlen : length (sent w1) = S (length (sent w)))
      by (unfold w1; cbn; rewrite length_app; cbn; lia).
    destruct (IH w1) as (w' & Hrun & Hslept & Hsent & Hframe & Hkeys & Hpost).
    { intros j l Hj. destruct (Hok (S j) l Hj) as (v' & c' & Hv' & Htv' & Hc').
      exists v', c'. rewrite Hkeep by discriminate. rewrite Hlen.
      replace (S (length (sent w)) + j) with (length (sent w) + S j) by lia. auto. }
    exists w'. split; [exact Hrun|]. split; [rewrite Hslept; reflexivity|].
    split; [rewrite Hsent, Hlen; cbn; lia|]. split.
    { intros l Hl. apply not_elem_of_cons in Hl as [Hne Hl].
      rewrite (Hframe l Hl). unfold w1. cbn. rewrite lookup_insert_ne by congruence. reflexivity. }
    split.
    { intros l key Hkey. rewrite (Hkeys l key Hkey). apply Hkeep, Hkey. }
    intros j l Hj Hlast. destruct j as [|j].
    + injection Hj as <-. exists v, c. rewrite Nat.add_0_r.
      split; [exact Hv|]. split; [exact Hc|].
      assert (Hnot : post ∉ rest).
      { intros Hin. apply list_elem_of_lookup in Hin as (k & Hk).
        apply (Hlast (S k)); [lia|exact Hk]. }
      unfold deref at 1. rewrite (Hframe post Hnot).
      change (deref w1 post !! "hiring_post"%string = Some (classification_value c)).
      unfold w1. rewrite deref_insert_same, lookup_insert_eq. reflexivity.
    + destruct (Hpost j l Hj) as (v' & c' & Hv' & Hc' & Hres).
      { intros j' Hj'. apply (Hlast (S j')). lia. }
      exists v', c'. rewrite Hkeep in Hv' by discriminate. rewrite Hlen in Hc'.
      replace (length (sent w) + S j) with (S (length (sent w)) + j) by lia. auto.
Qed.

Lemma last_occurrence (items : list ref) (l : ref) :
  l ∈ items ->
  exists j, items !! j = Some l /\ forall j', j < j' -> items !! j' <> Some l.
Proof.
  induction items as [|x xs IH]; intros Hl; [inversion Hl|].
  destruct (decide (l ∈ xs)) as [Hin|Hnot].
  - destruct (IH Hin) as (j & Hj & Hlast). exists (S j). split; [exact Hj|].
    intros j' Hj'. destruct j' as [|j']; [lia|]. apply Hlast. lia.
  - apply elem_of_cons in Hl as [->|Hl]; [|contradiction]. exists 0.
    split; [reflexivity|]. intros j' Hj' Hk. destruct j' as [|j']; [lia|].
    apply Hnot. apply list_elem_of_lookup. exists j'. exact Hk.
Qed.

(** C6: for every non-empty list of posts whose inference calls all return,
    [classify_jobs] returns the very list it was given, so length and order
    are kept, after sleeping 10 seconds and sending one request per post; in
    the objects of the list it only writes the key [hiring_post], so every
    other field is as before, and objects outside the list are untouched.
    Every record of the list ends with a 0/1 [hiring_post], the
    classification returned by the request made for that record's content
    (for an object listed more than once, by the last of them; for a list of
    distinct objects, the request at the record's own position). *)
Theorem classify_jobs_annotates_in_place (prompt : list N) (items : list ref)
    (w : world) :
  items <> [] ->
  Text.truthy prompt = true ->
  (forall j l, items !! j = Some l ->
     exists v c, deref w l !! "content"%string = Some v /\ Py.truthy v = true
       /\ backend (length (sent w) + j) HiringPost prompt v = Some c) ->
  exists w',
    classify_jobs backend (Some items) prompt w = (inr items, w')
    /\ slept w' = slept w + 10
    /\ length (sent w') = length (sent w) + length items
    /\ (forall l, l ∉ items -> heap w' !! l = heap w !! l)
    /\ (forall l key, key <> "hiring_post"%string -> deref w' l !! key = deref w l !! key)
    /\ (forall j l, items !! j = Some l ->
          (forall j', j < j' -> items !! j' <> Some l) ->
          exists v c, deref w l !! "content"%string = Some v
            /\ backend (length (sent w) + j) HiringPost prompt v = Some c
            /\ deref w' l !! "hiring_post"%string = Some (classification_value c))
    /\ (forall l, l ∈ items ->
          deref w' l !! "hiring_post"%string = Some (Py.VInt 0)
          \/ deref w' l !! "hiring_post"%string = Some (Py.VInt 1))
    /\ (NoDup items ->
        forall j l, items !! j = Some l ->
          exists v c, deref w l !! "content"%string = Some v
            /\ backend (length (sent w) + j) HiringPost prompt v = Some c
            /\ deref w' l !! "hiring_post"%string = Some (classification_value c)).
Proof.
  intros Hne Htp Hok.
  set (w0 := {| heap := heap w; sent := sent w; slept := slept w + 10 |}).
  destruct (classify_loop_spec prompt items Htp w0)
    as (w' & Hrun & Hslept & Hsent & Hframe & Hkeys & Hpost); [exact Hok|].
  exists w'. split.
  { destruct items as [|x xs]; [contradiction|].
    unfold classify_jobs. unfold bind at 1, sleep at 1.
    unfold bind at 1. fold w0. rewrite Hrun. reflexivity. }
  split; [exact Hslept|]. split; [exact Hsent|]. split; [exact Hframe|].
  split; [exact Hkeys|]. split; [exact Hpost|]. split.
  - intros l Hl. destruct (last_occurrence items l Hl) as (j & Hj & Hlast).
    destruct (Hpost j l Hj Hlast) as (v & c & _ & _ & Hres).
    rewrite Hres. unfold classification_value.
    destruct (classification c); [right|left]; reflexivity.
  - intros Hnd j l Hj. apply (Hpost j l Hj).
    intros j' Hj' Hk. pose proof (NoDup_lookup items j j' l Hnd Hj Hk). lia.
Qed.
End Classify.

Lemma classify_jobs_annotates_in_place_witness :
  [1%positive; 2%positive] <> []
  /\ Text.truthy Samples.sample_prompt = true
  /\ exists w',
       classify_jobs Samples.sample_backend (Some [1%positive; 2%positive])
         Samples.sample_prompt Samples.sample_world
       = (inr [1%positive; 2%positive], w')
       /\ length (sent w') = 2
       /\ deref w' 1%positive !! "hiring_post"%string = Some (Py.VInt 1)
       /\ deref w' 2%positive !! "hiring_post"%string = Some (Py.VInt 0).
Proof.
  assert (Hne : [1%positive; 2%positive] <> []) by discriminate.
  assert (Htp : Text.truthy Samples.sample_prompt = true) by reflexivity.
  split; [exact Hne|]. split; [exact Htp|].
  destruct (classify_jobs_annotates_in_place Samples.sample_backend
              Samples.sample_prompt [1%positive; 2%positive] Samples.sample_world
              Hne Htp)
    as (w' & Hrun & _ & Hsent & _ & _ & _ & _ & Hdistinct).
  { intros j l Hj. destruct j as [|[|j]]; cbn in Hj; try discriminate;
      injection Hj as <-; eexists _, _; vm_compute; repeat split. }
  exists w'. split; [exact Hrun|]. split; [exact Hsent|].
  assert (Hnd : NoDup [1%positive; 2%positive])
    by (apply NoDup_cons; split;
        [intros H%list_elem_of_singleton; discriminate|apply NoDup_singleton]).
  split.
  - destruct (Hdistinct Hnd 0 1%positive eq_refl) as (v & c & _ & Hc & Hres).
    injection Hc as <-. exact Hres.
  - destruct (Hdistinct Hnd 1 2%positive eq_refl) as (v & c & _ & Hc & Hres).
    injection Hc as <-. exact Hres.
Defined.

End ClassifyFacts.

(** ** [save_posts_to_csv] *)
Module PersistenceFacts.
Import Main.
Local Open Scope nat_scope.

Section Persistence.
Context {File : Type}.
Variable to_csv_text : dataframe -> File.
Variable read_csv_text : File -> option dataframe.

(** What is read back from a written table is that table. *)
Hypothesis round_trip : forall df, read_csv_text (to_csv_text df) = Some df.

(** A call during which nothing raises adds its records after those the
    store holds. *)
Lemma save_posts_to_csv_appends (posts : list Py.dict) (env : io)
    (file : option File) (df0 : dataframe) :
  read_raises env = false -> write env = Write_ok ->
  records read_csv_text file = Some df0 ->
  records read_csv_text
    (store (save_posts_to_csv to_csv_text read_csv_text (Some posts) env file))
  = Some (df0 ++ posts).
Proof using round_trip.
  intros Hread Hwrite Hfile. destruct posts as [|p ps].
  - cbn. rewrite app_nil_r. exact Hfile.
  - unfold save_posts_to_csv. destruct file as [text|].
    + cbn in Hfile. rewrite Hread, Hfile. unfold to_csv. rewrite Hwrite.
      cbn. apply round_trip.
    + cbn in Hfile. injection Hfile as <-. unfold to_csv. rewrite Hwrite.
      cbn. apply round_trip.
Qed.

(** C7, as the code has it: the store is rewritten from what [pd.read_csv]
    parses of it. Writing N records to a store that is absent, or that is
    parsed as holding no record, and then M more, no call raising and each
    of the two tables written reading back as written, leaves a store of
    exactly N+M records whose first N are the records of the first call, as
    they were after that call. *)
Theorem save_posts_to_csv_appends_to_parsed_store (first second : list Py.dict)
    (env1 env2 : io) (file : option File) :
  records read_csv_text file = Some [] ->
  read_raises env1 = false -> write env1 = Write_ok ->
  read_raises env2 = false -> write env2 = Write_ok ->
  read_csv_text (to_csv_text first) = Some first ->
  read_csv_text (to_csv_text (first ++ second)) = Some (first ++ second) ->
  let after1 := store (save_posts_to_csv to_csv_text read_csv_text (Some first) env1 file) in
  let after2 := store (save_posts_to_csv to_csv_text read_csv_text (Some second) env2 after1) in
  records read_csv_text after1 = Some first
  /\ records read_csv_text after2 = Some (first ++ second)
  /\ length (first ++ second) = length first + length second
  /\ take (length first) (first ++ second) = first.
Proof.
  intros Hempty Hr1 Hw1 Hr2 Hw2 Hback1 Hback2 after1 after2.
  assert (H1 : records read_csv_text after1 = Some first).
  { subst after1. destruct first as [|p ps]; [exact Hempty|].
    unfold save_posts_to_csv. destruct file as [text|].
    - cbn in Hempty. rewrite Hr1, Hempty. unfold to_csv. rewrite Hw1.
      cbn [store records app]. exact Hback1.
    - unfold to_csv. rewrite Hw1. cbn [store records]. exact Hback1. }
  split; [exact H1|]. split.
  - subst after2. destruct second as [|q qs].
    { cbn [save_posts_to_csv store]. rewrite app_nil_r. exact H1. }
    unfold save_posts_to_csv at 1. destruct after1 as [text|].
    + cbn in H1. rewrite Hr2, H1. unfold to_csv. rewrite Hw2.
      cbn [store records]. exact Hback2.
    + cbn in H1. injection H1 as <-. unfold to_csv. rewrite Hw2.
      cbn [store records]. exact Hback2.
  - split; [apply length_app|]. rewrite take_app_length. reflexivity.
Qed.

End Persistence.

Lemma save_posts_to_csv_appends_to_parsed_store_witness :
  Samples.strict_text_to_table (Samples.table_to_text [Samples.ada_post])
    = Some [Samples.ada_post]
  /\ Samples.strict_text_to_table
       (Samples.table_to_text ([Samples.ada_post] ++ [Samples.bob_post]))
     = Some ([Samples.ada_post] ++ [Samples.bob_post])
  /\ records Samples.strict_text_to_table
       (store (save_posts_to_csv Samples.table_to_text Samples.strict_text_to_table
                 (Some [Samples.bob_post]) Samples.no_fault
                 (store (save_posts_to_csv Samples.table_to_text
                           Samples.strict_text_to_table
                           (Some [Samples.ada_post]) Samples.no_fault None))))
     = Some ([Samples.ada_post] ++ [Samples.bob_post]).
Proof.
  split; [reflexivity|]. split; [reflexivity|].
  exact (proj1 (proj2
    (save_posts_to_csv_appends_to_parsed_store Samples.table_to_text
       Samples.strict_text_to_table
       [Samples.ada_post] [Samples.bob_post] Samples.no_fault Samples.no_fault
       None eq_refl eq_refl eq_refl eq_refl eq_refl eq_refl eq_refl))).
Defined.

(** C7 as stated fails: the store is an existing file without content, which
    the reader rejects as [pd.read_csv] does; nothing raises in the
    environment, and after the two calls the file is still without content:
    each call handed its batch back and wrote nothing. *)
Lemma save_posts_to_csv_zero_byte_store :
  Samples.strict_text_to_table [] = None
  /\ returned (save_posts_to_csv Samples.table_to_text Samples.strict_text_to_table
                 (Some [Samples.ada_post]) Samples.no_fault (Some []))
     = [Samples.ada_post]
  /\ store (save_posts_to_csv Samples.table_to_text Samples.strict_text_to_table
              (Some [Samples.bob_post]) Samples.no_fault
              (store (save_posts_to_csv Samples.table_to_text
                        Samples.strict_text_to_table
                        (Some [Samples.ada_post]) Samples.no_fault (Some []))))
     = Some []
  /\ records Samples.strict_text_to_table (Some []) = None.
Proof. repeat split. Qed.



End PersistenceFacts.

(** ** Extraction of a post and search for the post elements *)
Module ExtractionFacts.
Import Text Scrape Extraction.

Lemma first_line_no_newline (s : list N) : 10 ∉ first_line s.
Proof.
  induction s as [|c s IH]; cbn; [apply not_elem_of_nil|].
  destruct (c =? 10) eqn:E; [apply not_elem_of_nil|].
  apply not_elem_of_cons. split; [|exact IH].
  intros Heq. subst c. apply N.eqb_neq in E. apply E. reflexivity.
Qed.

Lemma omap_id_length {A} (l : list (option A)) :
  (length (omap id l) <= length l)%nat.
Proof.
  induction l as [|[x|] l IH]; cbn; lia.
Qed.

Section Strip.
Variable db : unicode_db.

Lemma lstrip_split (s : list N) :
  exists z, s = z ++ lstrip db s /\ Forall (fun c => isspace db c = true) z.
Proof.
  induction s as [|c s (z & Hz & Hsp)]; cbn.
  - exists []. split; [reflexivity|constructor].
  - destruct (isspace db c) eqn:E.
    + exists (c :: z). split; [cbn; rewrite <- Hz; reflexivity|].
      constructor; [exact E|exact Hsp].
    + exists []. split; [reflexivity|constructor].
Qed.

Lemma lstrip_head (s : list N) c t : lstrip db s = c :: t -> isspace db c = false.
Proof.
  induction s as [|x s IH]; cbn; [discriminate|].
  destruct (isspace db x) eqn:E; [exact IH|].
  intros H. injection H as <- _. exact E.
Qed.

Lemma rstrip_split (s : list N) : exists z, s = rstrip db s ++ z.
Proof.
  destruct (lstrip_split (rev s)) as (z & Hz & _). exists (rev z).
  unfold rstrip. rewrite <- rev_app_distr, <- Hz, rev_involutive. reflexivity.
Qed.

Lemma strip_head (s : list N) c t : strip db s = c :: t -> isspace db c = false.
Proof.
  unfold strip. intros H.
  destruct (rstrip_split (lstrip db s)) as (z & Hz).
  rewrite H in Hz. cbn in Hz. apply (lstrip_head s c _ Hz).
Qed.

Lemma strip_last (s : list N) t c : strip db s = t ++ [c] -> isspace db c = false.
Proof.
  unfold strip, rstrip. intros H.
  apply (f_equal (@rev N)) in H. rewrite rev_involutive, rev_app_distr in H.
  cbn in H. apply (lstrip_head _ c _ H).
Qed.

Lemma strip_subset (s : list N) c : c ∈ strip db s -> c ∈ s.
Proof.
  unfold strip. intros H.
  destruct (rstrip_split (lstrip db s)) as (z & Hz).
  destruct (lstrip_split s) as (z' & Hz' & _).
  rewrite Hz'. apply elem_of_app. right.
  rewrite Hz. apply elem_of_app. left. exact H.
Qed.

(** What [extract_post_details] returns when it returns a post. *)
Lemma extract_post_details_Some (e : element) (p : post_data) :
  extract_post_details db e = Some p ->
  exists text title urn,
    content_text e = Some text /\ actor_title e = Some title
    /\ data_urn e = Some urn /\ urn <> [] /\ strip db text <> []
    /\ p = {| content := strip db text;
              url := LINKEDIN_POST_BASE_URL ++ urn;
              profile_name := strip db (first_line title) |}.
Proof.
  unfold extract_post_details.
  destruct (content_text e) as [text|]; [|discriminate].
  destruct (strip db text) as [|c0 t0] eqn:Ec; [discriminate|]. cbn [truthy negb].
  destruct (actor_title e) as [title|]; [|discriminate].
  destruct (data_urn e) as [[|u0 urn]|]; try discriminate. cbn [truthy].
  intros H. injection H as <-. exists text, title, (u0 :: urn).
  rewrite Ec. repeat split; discriminate.
Qed.

(** A post that comes out of the extraction has a content that is not empty
    and has no white space at either end, a profile name without a line feed
    (the character the title is split on; a carriage return may remain), and
    the base url followed by the non-empty [data-urn] as its url. *)
Theorem extract_post_details_invariants (e : element) (p : post_data) :
  extract_post_details db e = Some p ->
  content p <> []
  /\ (forall c t, content p = c :: t -> isspace db c = false)
  /\ (forall t c, content p = t ++ [c] -> isspace db c = false)
  /\ (10 ∉ profile_name p)
  /\ exists urn, data_urn e = Some urn /\ urn <> []
       /\ url p = LINKEDIN_POST_BASE_URL ++ urn.
Proof.
  intros H. apply extract_post_details_Some in H
    as (text & title & urn & _ & _ & Hurn & Hne & Hc & ->).
  cbn [content url profile_name].
  split; [exact Hc|]. split; [apply strip_head|]. split; [apply strip_last|].
  split; [|exists urn; auto].
  intros Hin. apply strip_subset in Hin. apply (first_line_no_newline title Hin).
Qed.

(** Two extracted posts have the same url exactly when their elements have
    the same [data-urn]: the deduplication by url is one by post
    identifier. *)
Theorem extract_post_details_url_injective (e1 e2 : element) (p1 p2 : post_data) :
  extract_post_details db e1 = Some p1 ->
  extract_post_details db e2 = Some p2 ->
  (url p1 = url p2 <-> data_urn e1 = data_urn e2).
Proof.
  intros H1 H2.
  apply extract_post_details_Some in H1 as (? & ? & u1 & _ & _ & Hu1 & _ & _ & ->).
  apply extract_post_details_Some in H2 as (? & ? & u2 & _ & _ & Hu2 & _ & _ & ->).
  cbn [url]. rewrite Hu1, Hu2. split.
  - intros H. apply app_inv_head in H. congruence.
  - intros H. injection H as ->. reflexivity.
Qed.

(** The records one scrape cycle keeps, for the elements found: their urls
    are pairwise distinct, each is the extraction of one of the elements and
    has a non-empty content, and the url of every element that could be
    extracted is among them. *)
Theorem scrape_posts_of_elements (elements : list element) :
  let out := scrape_posts (map (extract_post_details db) elements) in
  NoDup (url <$> out)
  /\ (length out <= length elements)%nat
  /\ (forall p, p ∈ out ->
        content p <> [] /\ exists e, e ∈ elements /\ extract_post_details db e = Some p)
  /\ (forall e p, e ∈ elements -> extract_post_details db e = Some p ->
        exists q, q ∈ out /\ url q = url p).
Proof.
  cbn zeta. set (cs := map (extract_post_details db) elements).
  assert (Hout : scrape_posts cs = fetched_posts (scrape_loop cs))
    by (destruct cs; reflexivity).
  rewrite Hout.
  destruct (DedupFacts.scrape_loop_invariant cs) as (Hseen & Hall & Hnd & Hsub & Hmem).
  split; [exact Hnd|]. split.
  { apply sublist_length in Hsub. etransitivity; [exact Hsub|].
    etransitivity; [apply omap_id_length|]. unfold cs. rewrite length_map. reflexivity. }
  split.
  - intros p Hp. apply Hmem in Hp as (i & Hi & _).
    unfold cs in Hi. rewrite list_lookup_fmap in Hi.
    destruct (elements !! i) as [e|] eqn:Ee; [|discriminate].
    cbn in Hi. injection Hi as Hi. split.
    + destruct (extract_post_details_Some e p Hi)
        as (text & title & urn & _ & _ & _ & _ & Hc & ->). exact Hc.
    + exists e. split; [apply list_elem_of_lookup; eauto|exact Hi].
  - intros e p He Hp. apply list_elem_of_lookup in He as (i & Hi).
    assert (Hc : cs !! i = Some (Some p)).
    { unfold cs. rewrite list_lookup_fmap, Hi. cbn. rewrite Hp. reflexivity. }
    apply Hall in Hc. apply Hseen in Hc as (q & Hq & Hu). eauto.
Qed.
End Strip.

Section Find.
Context {Element : Type}.
Variable find_elements : string -> option (list Element).

Lemma find_from_first_nonempty (selectors : list string) (posts : list Element) :
  find_from find_elements selectors = Some posts ->
  (posts = [] /\ forall sel, sel ∈ selectors -> find_elements sel = Some [])
  \/ (posts <> [] /\ exists i sel,
        selectors !! i = Some sel /\ find_elements sel = Some posts
        /\ forall j sel', (j < i)%nat -> selectors !! j = Some sel' ->
             find_elements sel' = Some []).
Proof.
  induction selectors as [|s rest IH]; cbn.
  - intros H. injection H as <-. left. split; [reflexivity|].
    intros sel Hs. inversion Hs.
  - destruct (find_elements s) as [[|x xs]|] eqn:E; [| |discriminate].
    + intros H. destruct (IH H) as [[-> Hall]|(Hne & i & sel & Hi & Hf & Hbefore)].
      * left. split; [reflexivity|]. intros sel Hs.
        apply elem_of_cons in Hs as [->|Hs]; [exact E|apply Hall, Hs].
      * right. split; [exact Hne|]. exists (S i), sel.
        split; [exact Hi|]. split; [exact Hf|].
        intros j sel' Hj Hs. destruct j as [|j]; cbn in Hs.
        -- injection Hs as <-. exact E.
        -- apply (Hbefore j sel'); [lia|exact Hs].
    + intros H. injection H as <-. right. split; [discriminate|].
      exists 0%nat, s. split; [reflexivity|]. split; [exact E|].
      intros j sel' Hj. lia.
Qed.

(** [_find_post_elements] returns the elements of the first of the three
    selectors that finds any, the selectors before it having found none; it
    returns no element only when all three find none. *)
Theorem find_post_elements_first_nonempty (posts : list Element) :
  _find_post_elements find_elements = Some posts ->
  (posts = [] /\ forall sel, sel ∈ post_containers -> find_elements sel = Some [])
  \/ (posts <> [] /\ exists i sel,
        post_containers !! i = Some sel /\ find_elements sel = Some posts
        /\ forall j sel', (j < i)%nat -> post_containers !! j = Some sel' ->
             find_elements sel' = Some []).
Proof. apply find_from_first_nonempty. Qed.
End Find.

Lemma extract_post_details_invariants_witness :
  extract_post_details ascii_db Samples.ada_element = Some Samples.ada_extracted
  /\ content Samples.ada_extracted <> []
  /\ (10 ∉ profile_name Samples.ada_extracted).
Proof.
  assert (H : extract_post_details ascii_db Samples.ada_element
              = Some Samples.ada_extracted) by (vm_compute; reflexivity).
  split; [exact H|].
  destruct (extract_post_details_invariants ascii_db _ _ H) as (Hc & _ & _ & Hn & _).
  split; [exact Hc|exact Hn].
Defined.

Lemma extract_post_details_url_injective_witness :
  extract_post_details ascii_db Samples.ada_element = Some Samples.ada_extracted
  /\ (url Samples.ada_extracted = url Samples.ada_extracted
      <-> data_urn Samples.ada_element = data_urn Samples.ada_element).
Proof.
  assert (H : extract_post_details ascii_db Samples.ada_element
              = Some Samples.ada_extracted) by (vm_compute; reflexivity).
  split; [exact H|].
  exact (extract_post_details_url_injective ascii_db _ _ _ _ H H).
Defined.

Lemma find_post_elements_first_nonempty_witness :
  _find_post_elements Samples.second_selector_page = Some [Samples.ada_element]
  /\ exists i sel,
       post_containers !! i = Some sel
       /\ Samples.second_selector_page sel = Some [Samples.ada_element]
       /\ forall j sel', (j < i)%nat -> post_containers !! j = Some sel' ->
            Samples.second_selector_page sel' = Some [].
Proof.
  assert (H : _find_post_elements Samples.second_selector_page
              = Some [Samples.ada_element]) by reflexivity.
  split; [exact H|].
  destruct (find_post_elements_first_nonempty Samples.second_selector_page _ H)
    as [[Hnil _]|[_ Hfound]]; [discriminate|exact Hfound].
Defined.

End ExtractionFacts.

(** ** The filter: case, surrounding text, [is_relevant_post] *)
Module RelevanceFacts.
Import Text Scrape Extraction Caseless TextFacts FilterFacts.

Lemma ascii_tolower_idem (c : N) : ascii_tolower (ascii_tolower c) = ascii_tolower c.
Proof.
  unfold ascii_tolower, ascii_isupper.
  destruct (65 <=? c) eqn:E1; destruct (c <=? 90) eqn:E2; cbn; try rewrite E1, E2; cbn;
    try reflexivity.
  apply N.leb_le in E1, E2.
  replace (c + 32 <=? 90) with false by (symmetry; apply N.leb_gt; lia).
  rewrite andb_false_r. reflexivity.
Qed.

Lemma ascii_tolower_bound (c : N) : c < 128 -> ascii_tolower c < 128.
Proof.
  unfold ascii_tolower, ascii_isupper. intros H.
  destruct (65 <=? c) eqn:E1; destruct (c <=? 90) eqn:E2; cbn; try exact H.
  apply N.leb_le in E2. lia.
Qed.

Lemma lower_ascii (s : list N) :
  Forall (fun c => c < 128) s -> Forall (fun c => c < 128) (map ascii_tolower s).
Proof.
  induction 1; cbn; constructor; auto using ascii_tolower_bound.
Qed.

Lemma lower_idem (s : list N) : map ascii_tolower (map ascii_tolower s) = map ascii_tolower s.
Proof.
  induction s as [|c s IH]; cbn; [reflexivity|]. rewrite ascii_tolower_idem, IH. reflexivity.
Qed.

(** Upper and lower case letters are no digits, no spaces and no
    non-letters. *)
Lemma atom_matches_lower (a : atom) (c : N) :
  caseless_atom a = true ->
  atom_matches ascii_db a (ascii_tolower c) = atom_matches ascii_db a c.
Proof.
  intros Ha. destruct a as [x|p| |]; cbn.
  - cbn in Ha. apply negb_true_iff in Ha.
    unfold ascii_tolower. destruct (ascii_isupper c) eqn:Eu; [|reflexivity].
    unfold ascii_isalpha, ascii_isupper, ascii_islower in *.
    apply andb_true_iff in Eu as [E1 E2]. apply N.leb_le in E1, E2.
    apply orb_false_iff in Ha as [Hu Hl].
    assert (H1 : c + 32 <> x).
    { intros <-. apply andb_false_iff in Hl as [Hl|Hl]; apply N.leb_gt in Hl; lia. }
    assert (H2 : c <> x).
    { intros <-. apply andb_false_iff in Hu as [Hu|Hu]; apply N.leb_gt in Hu; lia. }
    apply N.eqb_neq in H1, H2. rewrite H1, H2. reflexivity.
  - rewrite ascii_tolower_idem. reflexivity.
  - unfold ascii_tolower. destruct (ascii_isupper c) eqn:Eu; [|reflexivity].
    unfold ascii_isupper, ascii_isdigit in *.
    apply andb_true_iff in Eu as [E1 E2]. apply N.leb_le in E1, E2.
    replace (c + 32 <=? 57) with false by (symmetry; apply N.leb_gt; lia).
    replace (c <=? 57) with false by (symmetry; apply N.leb_gt; lia).
    rewrite !andb_false_r. reflexivity.
  - unfold ascii_tolower. destruct (ascii_isupper c) eqn:Eu; [|reflexivity].
    unfold ascii_isupper, ascii_isspace in *.
    apply andb_true_iff in Eu as [E1 E2]. apply N.leb_le in E1, E2.
    replace (c + 32 <=? 13) with false by (symmetry; apply N.leb_gt; lia).
    replace (c + 32 <=? 32) with false by (symmetry; apply N.leb_gt; lia).
    replace (c <=? 13) with false by (symmetry; apply N.leb_gt; lia).
    replace (c <=? 32) with false by (symmetry; apply N.leb_gt; lia).
    rewrite !andb_false_r. reflexivity.
Qed.

Lemma caseless_seq r1 r2 :
  caseless_pattern r1 = true -> caseless_pattern r2 = true ->
  caseless_pattern (seq r1 r2) = true.
Proof. intros H1 H2. destruct r1; simpl in *; try rewrite H1; auto. Qed.

Lemma caseless_alt r1 r2 :
  caseless_pattern r1 = true -> caseless_pattern r2 = true ->
  caseless_pattern (alt r1 r2) = true.
Proof. intros H1 H2. destruct r1, r2; simpl in *; try rewrite H1; auto. Qed.

Lemma deriv_lower c r :
  caseless_pattern r = true ->
  deriv ascii_db (ascii_tolower c) r = deriv ascii_db c r
  /\ caseless_pattern (deriv ascii_db c r) = true.
Proof.
  intros Hr. induction r as [| |a|r1 IH1 r2 IH2|r1 IH1 r2 IH2|r1 IH1]; simpl in *.
  - auto.
  - auto.
  - rewrite (atom_matches_lower a c Hr).
    destruct (atom_matches ascii_db a c); auto.
  - apply andb_true_iff in Hr as [Hr1 Hr2].
    destruct (IH1 Hr1) as [E1 P1], (IH2 Hr2) as [E2 P2]. rewrite E1, E2.
    split; [reflexivity|].
    destruct (nullable r1); auto using caseless_alt, caseless_seq.
  - apply andb_true_iff in Hr as [Hr1 Hr2].
    destruct (IH1 Hr1) as [E1 P1], (IH2 Hr2) as [E2 P2]. rewrite E1, E2.
    auto using caseless_alt.
  - destruct (IH1 Hr) as [E1 P1]. rewrite E1. auto using caseless_seq.
Qed.

Lemma match_at_lower s : forall r,
  caseless_pattern r = true ->
  match_at ascii_db r (map ascii_tolower s) = match_at ascii_db r s.
Proof.
  induction s as [|c s IH]; intros r Hr; simpl; [reflexivity|].
  destruct (deriv_lower c r Hr) as [E P]. rewrite E, (IH _ P). reflexivity.
Qed.

(** A caseless pattern is found in a text exactly when it is found in the
    lower-cased text. *)
Lemma re_search_lower r s :
  caseless_pattern r = true ->
  re_search ascii_db r (map ascii_tolower s) = re_search ascii_db r s.
Proof.
  intros Hr. induction s as [|c s IH]; [reflexivity|].
  cbn [re_search map]. rewrite IH.
  change (ascii_tolower c :: map ascii_tolower s) with (map ascii_tolower (c :: s)).
  rewrite (match_at_lower (c :: s) r Hr). reflexivity.
Qed.

Lemma is_job_post_w_lower (s : list N) :
  is_job_post_w ascii_db (map ascii_tolower s) = is_job_post_w ascii_db s.
Proof.
  unfold is_job_post_w, count_indicators.
  assert (Ht : truthy (map ascii_tolower s) = truthy s) by (destruct s; reflexivity).
  rewrite Ht.
  rewrite !re_search_lower by (vm_compute; reflexivity).
  cbn [str_lower ascii_db]. rewrite lower_idem. reflexivity.
Qed.

Section Tables.
Variable db : unicode_db.
Hypothesis Hdb : ascii_exact db.

(** On ASCII text the filter does not depend on the rest of Unicode. *)
Lemma is_job_post_w_ascii (s : list N) :
  Forall (fun c => c < 128) s -> is_job_post_w db s = is_job_post_w ascii_db s.
Proof using Hdb.
  intros Hs. unfold is_job_post_w, count_indicators.
  rewrite !(re_search_ascii db Hdb) by (first [exact Hs | vm_compute; reflexivity]).
  rewrite (str_lower_ascii db Hdb s Hs). reflexivity.
Qed.

(** [is_job_post] does not tell upper case from lower case: on ASCII text it
    gives the same answer for a content and for the content in lower case. *)
Lemma is_job_post_lower (content : list N) :
  Forall (fun c => c < 128) content ->
  is_job_post db (str_lower db content) = is_job_post db content.
Proof using Hdb.
  intros Hs. unfold is_job_post.
  rewrite (str_lower_ascii db Hdb content Hs). cbn [str_lower ascii_db].
  rewrite (is_job_post_w_ascii _ (lower_ascii content Hs)), (is_job_post_w_ascii _ Hs).
  rewrite is_job_post_w_lower. reflexivity.
Qed.

(** [is_relevant_post] is false for no post, for an empty [dict] and for a
    post without [content]; for a post with an ASCII content it is
    [is_job_post] of that content: lower-casing the content first changes
    nothing, since [is_job_post] does not tell upper case from lower case. *)
Theorem is_relevant_post_is_job_post (d : gmap string (list N)) :
  is_relevant_post db None = false
  /\ is_relevant_post db (Some ∅) = false
  /\ (d !! "content"%string = None -> is_relevant_post db (Some d) = false)
  /\ (forall content, d !! "content"%string = Some content ->
        Forall (fun c => c < 128) content ->
        is_relevant_post db (Some d) = is_job_post db content).
Proof using Hdb.
  assert (Hnil : str_lower db [] = []) by (apply (ax_str_lower db Hdb); constructor).
  split; [reflexivity|]. split; [reflexivity|]. split.
  - intros Hc. unfold is_relevant_post. case_bool_decide; [reflexivity|].
    rewrite Hc. cbn [default]. rewrite Hnil. reflexivity.
  - intros content Hc Hs. unfold is_relevant_post.
    rewrite bool_decide_eq_false_2.
    + rewrite Hc. cbn [default]. apply is_job_post_lower, Hs.
    + intros ->. rewrite lookup_empty in Hc. discriminate.
Qed.
End Tables.

Lemma is_prefix_spec (needle hay : list N) :
  is_prefix needle hay = true <-> exists rest, hay = needle ++ rest.
Proof.
  revert hay. induction needle as [|x n IH]; intros hay; cbn.
  - split; [intros _; exists hay; reflexivity|reflexivity].
  - destruct hay as [|y h].
    + split; [discriminate|]. intros (rest & H). discriminate.
    + rewrite andb_true_iff, N.eqb_eq, IH. split.
      * intros (-> & rest & ->). exists rest. reflexivity.
      * intros (rest & H). injection H as -> ->. split; [reflexivity|]. exists rest. reflexivity.
Qed.

(** [needle in hay] holds exactly when the needle is a piece of the hay. *)
Lemma contains_spec (needle hay : list N) :
  contains needle hay = true <-> exists before after, hay = before ++ needle ++ after.
Proof.
  induction hay as [|y h IH]; cbn [contains].
  - rewrite orb_false_r, is_prefix_spec. split.
    + intros (rest & H). exists [], rest. exact H.
    + intros (b & a & H). symmetry in H. apply app_eq_nil in H as [-> H].
      exists a. symmetry. exact H.
  - rewrite orb_true_iff, is_prefix_spec, IH. split.
    + intros [(rest & H)|(b & a & ->)].
      * exists [], rest. exact H.
      * exists (y :: b), a. reflexivity.
    + intros (b & a & H). destruct b as [|x b].
      * left. exists a. exact H.
      * cbn in H. injection H as <- ->. right. exists b, a. reflexivity.
Qed.

Lemma contains_extend (needle a s b : list N) :
  contains needle s = true -> contains needle (a ++ s ++ b) = true.
Proof.
  rewrite !contains_spec. intros (x & y & ->). exists (a ++ x), (y ++ b).
  rewrite <- !app_assoc. reflexivity.
Qed.

Lemma re_search_extend (db : unicode_db) (r : regex) (a s b : list N) :
  re_search db r s = true -> re_search db r (a ++ s ++ b) = true.
Proof.
  rewrite !re_search_spec. intros (x & f & y & -> & Hf).
  exists (a ++ x), f, (y ++ b). split; [|exact Hf].
  rewrite <- !app_assoc. reflexivity.
Qed.

Lemma sum_bools_cons (b : bool) (l : list bool) :
  sum_bools (b :: l) = (Nat.b2n b + sum_bools l)%nat.
Proof.
  unfold sum_bools. cbn [fold_left]. generalize (Nat.b2n b). clear b.
  assert (H : forall l acc,
            fold_left (fun (acc : nat) (b : bool) => (acc + Nat.b2n b)%nat) l acc
            = (acc + fold_left (fun (acc : nat) (b : bool) => (acc + Nat.b2n b)%nat) l 0)%nat).
  { clear l. induction l as [|x l IH]; intros acc; cbn [fold_left]; [lia|].
    rewrite (IH (acc + Nat.b2n x)%nat), (IH (0 + Nat.b2n x)%nat). lia. }
  intros n. rewrite (H l (0 + n)%nat). lia.
Qed.

Lemma sum_bools_mono (l1 l2 : list bool) :
  Forall2 (fun x y : bool => x = true -> y = true) l1 l2 ->
  (sum_bools l1 <= sum_bools l2)%nat.
Proof.
  induction 1 as [|x y l1 l2 Hxy _ IH]; [reflexivity|].
  rewrite !sum_bools_cons.
  destruct x, y; cbn; try lia; discriminate (Hxy eq_refl).
Qed.

Section Extend.
Variable db : unicode_db.
Hypothesis Hdb : ascii_exact db.

Lemma is_job_post_true (content : list N) :
  is_job_post db content = true ->
  re_search db job_pattern content = true /\ (2 <= indicators db content)%nat.
Proof.
  intros H. destruct (re_search db job_pattern content) eqn:Eg.
  - split; [reflexivity|]. rewrite (is_job_post_scored db content Eg) in H.
    apply Nat.leb_le. exact H.
  - exfalso. revert H. unfold is_job_post, is_job_post_w.
    destruct content; cbn [truthy negb]; [discriminate|].
    unfold probing at 1. cbn [bind]. rewrite Eg. discriminate.
Qed.

(** Text around a job post does not hide it: if [is_job_post] accepts an
    ASCII content it accepts every ASCII text that contains it. *)
Theorem is_job_post_extend (before content after : list N) :
  Forall (fun c => c < 128) before ->
  Forall (fun c => c < 128) content ->
  Forall (fun c => c < 128) after ->
  is_job_post db content = true ->
  is_job_post db (before ++ content ++ after) = true.
Proof using Hdb.
  intros Ha Hs Hb H. apply is_job_post_true in H as [Hgate Hn].
  assert (Hall : Forall (fun c => c < 128) (before ++ content ++ after))
    by (repeat (apply Forall_app; split); assumption).
  assert (Hlow : forall w, in_lower db w content = true ->
                           in_lower db w (before ++ content ++ after) = true).
  { intros w. unfold in_lower.
    rewrite (str_lower_ascii db Hdb _ Hs), (str_lower_ascii db Hdb _ Hall).
    cbn [str_lower ascii_db]. rewrite !map_app. apply contains_extend. }
  rewrite (is_job_post_scored db _ (re_search_extend db _ before content after Hgate)).
  apply Nat.leb_le. etransitivity; [exact Hn|].
  rewrite !indicators_sum. apply sum_bools_mono.
  repeat constructor; try apply Hlow; apply re_search_extend.
Qed.
End Extend.

Lemma hiring_text_ascii : Forall (fun c => c < 128) Samples.hiring_text.
Proof. apply all_ascii. vm_compute. reflexivity. Qed.

Lemma is_relevant_post_is_job_post_witness :
  ascii_exact ascii_db
  /\ is_relevant_post ascii_db (Some Samples.hiring_record)
     = is_job_post ascii_db Samples.hiring_text.
Proof.
  split; [exact ascii_db_exact|].
  destruct (is_relevant_post_is_job_post ascii_db ascii_db_exact Samples.hiring_record)
    as (_ & _ & _ & H).
  apply H; [vm_compute; reflexivity|exact hiring_text_ascii].
Defined.

Lemma is_job_post_extend_witness :
  ascii_exact ascii_db
  /\ is_job_post ascii_db Samples.hiring_text = true
  /\ is_job_post ascii_db
       (str_of "Hello! " ++ Samples.hiring_text ++ str_of " Thanks.") = true.
Proof.
  assert (H : is_job_post ascii_db Samples.hiring_text = true)
    by (vm_compute; reflexivity).
  split; [exact ascii_db_exact|]. split; [exact H|].
  apply (is_job_post_extend ascii_db ascii_db_exact);
    [apply all_ascii; vm_compute; reflexivity|exact hiring_text_ascii
    |apply all_ascii; vm_compute; reflexivity|exact H].
Defined.

End RelevanceFacts.

(** ** How often the page is scrolled *)
Module ScrollingFacts.
Import Scrolling.

Lemma normalize_int (fallback x : pyarg) : is_int x = true -> normalize fallback x = inr x.
Proof. intros H. unfold normalize. rewrite H. reflexivity. Qed.

Lemma normalize_is_int (fallback x v : pyarg) :
  is_int fallback = true -> normalize fallback x = inr v -> is_int v = true.
Proof.
  intros Hf. unfold normalize. destruct (is_int x) eqn:Ex.
  - intros H. injection H as <-. exact Ex.
  - destruct x as [z|b|[|first rest]|r]; cbn.
    + discriminate.
    + discriminate.
    + intros H. injection H as <-. exact Hf.
    + destruct (int_of first); [discriminate|]. intros H. injection H as <-. reflexivity.
    + destruct r as [[]|z]; try discriminate.
      * intros H. injection H as <-. exact Hf.
      * intros H. injection H as <-. exact Hf.
      * intros H. injection H as <-. reflexivity.
Qed.

(** Whatever is passed to the constructor, the value it stores, if it
    returns, is an [int]; [scrape_posts] and [_scroll_page] then leave that
    value as it is, and a [run] scrolls the page that many times, not at all
    when it is negative. *)
Theorem max_scroll_attempts_is_int (arg : option pyarg) (v : pyarg) :
  init_max_scroll_attempts arg = inr v ->
  is_int v = true
  /\ scrape_scroll_attempts v (Some v) = inr v
  /\ scrape_scroll_attempts v None = inr v
  /\ run_scrolls v = inr (range_length v)
  /\ (arg = None -> v = PInt 20).
Proof.
  intros H. unfold init_max_scroll_attempts in H.
  assert (Hv : is_int v = true)
    by (apply (normalize_is_int MAX_SCROLL_ATTEMPTS _ _ eq_refl H)).
  split; [exact Hv|].
  assert (Hs : scrape_scroll_attempts v (Some v) = inr v)
    by (apply normalize_int, Hv).
  split; [exact Hs|]. split; [apply normalize_int, Hv|]. split.
  - unfold run_scrolls. rewrite Hs. unfold _scroll_page.
    rewrite (normalize_int _ _ Hv). reflexivity.
  - intros ->. cbn in H. injection H as <-. reflexivity.
Qed.

Lemma max_scroll_attempts_is_int_witness :
  init_max_scroll_attempts (Some (PSeq [PObj (inr 3%Z); PInt 9])) = inr (PInt 3)
  /\ run_scrolls (PInt 3) = inr 3%nat.
Proof.
  assert (H : init_max_scroll_attempts (Some (PSeq [PObj (inr 3%Z); PInt 9]))
              = inr (PInt 3)) by reflexivity.
  split; [exact H|].
  exact (proj1 (proj2 (proj2 (proj2 (max_scroll_attempts_is_int _ _ H))))).
Defined.

End ScrollingFacts.

(** ** The classification loops: [classify_names], and a failing call *)
Module AnnotationFacts.
Import Main Pipeline ClassifyFacts.
Local Open Scope nat_scope.

Section Annotate.
Variable backend : nat -> schema -> list N -> Py.value -> option result.
Variables in_key out_key : string.
Variable format : schema.
Hypothesis keys_differ : in_key <> out_key.

Lemma annotate_loop_cons (prompt : list N) (post : ref) (rest : list ref)
    (w : world) (v : Py.value) (c : result) :
  deref w post !! in_key = Some v ->
  Py.truthy v = true -> Text.truthy prompt = true ->
  backend (length (sent w)) format prompt v = Some c ->
  annotate_loop backend in_key out_key format prompt (post :: rest) w =
  annotate_loop backend in_key out_key format prompt rest (annotated out_key w prompt post v c).
Proof.
  intros Hv Htv Htp Hc. cbn [annotate_loop]. unfold bind at 1, getitem at 1.
  rewrite Hv. unfold bind at 1, inference at 1, Ollama.inference.
  rewrite Htv, Htp. cbn [negb orb]. rewrite Hc. reflexivity.
Qed.

(** The first item cannot be classified: the loop raises there. *)
Lemma annotate_loop_fails (prompt : list N) (post : ref) (rest : list ref) (w : world) :
  Text.truthy prompt = true ->
  (forall v, deref w post !! in_key = Some v -> Py.truthy v = true ->
             backend (length (sent w)) format prompt v = None) ->
  exists w',
    annotate_loop backend in_key out_key format prompt (post :: rest) w
    = (inl match deref w post !! in_key with
           | None => Py.KeyError in_key
           | Some v => if Py.truthy v then Py.InferenceFailure else Py.InvalidArgument
           end, w')
    /\ heap w' = heap w /\ slept w' = slept w
    /\ length (sent w') =
       length (sent w) + match deref w post !! in_key with
                         | Some v => if Py.truthy v then 1 else 0
                         | None => 0
                         end.
Proof.
  intros Htp Hfail. cbn [annotate_loop]. unfold bind at 1, getitem at 1.
  destruct (deref w post !! in_key) as [v|] eqn:Hv.
  - unfold bind at 1, inference at 1, Ollama.inference.
    rewrite Htp. destruct (Py.truthy v) eqn:Htv; cbn [negb orb].
    + rewrite (Hfail v eq_refl Htv). eexists. split; [reflexivity|].
      cbn. rewrite length_app. cbn. auto.
    + eexists. split; [reflexivity|]. cbn. auto.
  - exists w. repeat split; lia.
Qed.

Lemma annotated_keeps (w : world) (prompt : list N) (post : ref) (v : Py.value)
    (c : result) (l : ref) (key : string) :
  key <> out_key ->
  deref (annotated out_key w prompt post v c) l !! key = deref w l !! key.
Proof.
  intros Hkey. unfold annotated. destruct (decide (post = l)) as [->|Hne].
  - rewrite deref_insert_same, lookup_insert_ne by congruence. reflexivity.
  - rewrite (deref_insert_other _ _ post l _ _ w Hne eq_refl). reflexivity.
Qed.

(** The loop when every request is answered. *)
Lemma annotate_loop_spec (prompt : list N) (items : list ref) :
  Text.truthy prompt = true ->
  forall w,
  (forall j l, items !! j = Some l ->
     exists v c, deref w l !! in_key = Some v /\ Py.truthy v = true
       /\ backend (length (sent w) + j) format prompt v = Some c) ->
  exists w',
    annotate_loop backend in_key out_key format prompt items w = (inr tt, w')
    /\ slept w' = slept w
    /\ length (sent w') = length (sent w) + length items
    /\ (forall l, l ∉ items -> heap w' !! l = heap w !! l)
    /\ (forall l key, key <> out_key -> deref w' l !! key = deref w l !! key)
    /\ (forall j l, items !! j = Some l ->
          (forall j', j < j' -> items !! j' <> Some l) ->
          exists v c, deref w l !! in_key = Some v
            /\ backend (length (sent w) + j) format prompt v = Some c
            /\ deref w' l !! out_key = Some (classification_value c)).
Proof using keys_differ.
  intros Htp. induction items as [|post rest IH]; intros w Hok.
  - exists w. cbn. repeat split; try lia.
    intros j l Hj. destruct j; discriminate.
  - destruct (Hok 0 post eq_refl) as (v & c & Hv & Htv & Hc).
    rewrite Nat.add_0_r in Hc.
    rewrite (annotate_loop_cons prompt post rest w v c Hv Htv Htp Hc).
    set (w1 := annotated out_key w prompt post v c).
    assert (Hlen : length (sent w1) = S (length (sent w)))
      by (unfold w1, annotated; cbn; rewrite length_app; cbn; lia).
    destruct (IH w1) as (w' & Hrun & Hslept & Hsent & Hframe & Hkeys & Hpost).
    { intros j l Hj. destruct (Hok (S j) l Hj) as (v' & c' & Hv' & Htv' & Hc').
      exists v', c'. unfold w1. rewrite annotated_keeps by exact keys_differ.
      fold w1. rewrite Hlen.
      replace (S (length (sent w)) + j) with (length (sent w) + S j) by lia. auto. }
    exists w'. split; [exact Hrun|]. split; [rewrite Hslept; reflexivity|].
    split; [rewrite Hsent, Hlen; cbn; lia|]. split.
    { intros l Hl. apply not_elem_of_cons in Hl as [Hne Hl].
      rewrite (Hframe l Hl). unfold w1, annotated. cbn.
      rewrite lookup_insert_ne by congruence. reflexivity. }
    split.
    { intros l key Hkey. rewrite (Hkeys l key Hkey). apply annotated_keeps, Hkey. }
    intros j l Hj Hlast. destruct j as [|j].
    + injection Hj as <-. exists v, c. rewrite Nat.add_0_r.
      split; [exact Hv|]. split; [exact Hc|].
      assert (Hnot : post ∉ rest).
      { intros Hin. apply list_elem_of_lookup in Hin as (k & Hk).
        apply (Hlast (S k)); [lia|exact Hk]. }
      unfold deref at 1. rewrite (Hframe post Hnot).
      change (deref w1 post !! out_key = Some (classification_value c)).
      unfold w1, annotated. rewrite deref_insert_same, lookup_insert_eq. reflexivity.
    + destruct (Hpost j l Hj) as (v' & c' & Hv' & Hc' & Hres).
      { intros j' Hj'. apply (Hlast (S j')). lia. }
      exists v', c'. unfold w1 in Hv'. rewrite annotated_keeps in Hv' by exact keys_differ.
      rewrite Hlen in Hc'.
      replace (length (sent w) + S j) with (S (length (sent w)) + j) by lia. auto.
Qed.

(** A loop over two lists one after the other runs the first and, when it
    ends without an exception, the second. *)
Lemma annotate_loop_app (prompt : list N) (l1 l2 : list ref) (w : world) :
  annotate_loop backend in_key out_key format prompt (l1 ++ l2) w =
  match annotate_loop backend in_key out_key format prompt l1 w with
  | (inl e, w') => (inl e, w')
  | (inr _, w') => annotate_loop backend in_key out_key format prompt l2 w'
  end.
Proof.
  revert w. induction l1 as [|post rest IH]; intros w.
  { cbn. reflexivity. }
  cbn [app annotate_loop]. unfold bind.
  destruct (getitem post in_key w) as [[e|v] w1]; [reflexivity|].
  destruct (inference backend (Some v) (Some prompt) (Some format) w1) as [[e|c] w2];
    [reflexivity|].
  destruct (setitem post out_key (classification_value c) w2) as [[e|u] w3];
    [reflexivity|].
  apply IH.
Qed.

(** The items before the first one that cannot be classified are annotated;
    the loop raises at that one and touches nothing after it. *)
Lemma annotate_loop_first_failure (prompt : list N) (pre : list ref) (post : ref)
    (rest : list ref) (w : world) :
  Text.truthy prompt = true ->
  (forall j l, pre !! j = Some l ->
     exists v c, deref w l !! in_key = Some v /\ Py.truthy v = true
       /\ backend (length (sent w) + j) format prompt v = Some c) ->
  (forall v, deref w post !! in_key = Some v -> Py.truthy v = true ->
             backend (length (sent w) + length pre) format prompt v = None) ->
  exists w',
    annotate_loop backend in_key out_key format prompt (pre ++ post :: rest) w
    = (inl match deref w post !! in_key with
           | None => Py.KeyError in_key
           | Some v => if Py.truthy v then Py.InferenceFailure else Py.InvalidArgument
           end, w')
    /\ slept w' = slept w
    /\ length (sent w') =
       length (sent w) + length pre
       + match deref w post !! in_key with
         | Some v => if Py.truthy v then 1 else 0
         | None => 0
         end
    /\ (forall l, l ∉ pre -> heap w' !! l = heap w !! l)
    /\ (forall l key, key <> out_key -> deref w' l !! key = deref w l !! key)
    /\ (forall l, l ∈ pre ->
          deref w' l !! out_key = Some (Py.VInt 0)
          \/ deref w' l !! out_key = Some (Py.VInt 1)).
Proof using keys_differ.
  intros Htp Hok Hfail.
  destruct (annotate_loop_spec prompt pre Htp w Hok)
    as (w1 & Hrun & Hslept & Hsent & Hframe & Hkeys & Hpost).
  assert (Hin : deref w1 post !! in_key = deref w post !! in_key)
    by (apply Hkeys, keys_differ).
  destruct (annotate_loop_fails prompt post rest w1 Htp)
    as (w' & Hrun' & Hheap & Hslept' & Hsent').
  { intros v Hv Htv. rewrite Hsent. apply Hfail; [|exact Htv]. rewrite <- Hin. exact Hv. }
  exists w'. rewrite annotate_loop_app, Hrun, Hrun', Hin.
  split; [reflexivity|]. split; [congruence|].
  split; [rewrite Hsent', Hsent, Hin; reflexivity|].
  assert (Hderef : forall l, deref w' l = deref w1 l)
    by (intros l; unfold deref; rewrite Hheap; reflexivity).
  split; [intros l Hl; rewrite Hheap; apply Hframe, Hl|].
  split; [intros l key Hkey; rewrite Hderef; apply Hkeys, Hkey|].
  intros l Hl. rewrite Hderef.
  destruct (last_occurrence pre l Hl) as (j & Hj & Hlast).
  destruct (Hpost j l Hj Hlast) as (v & c & _ & _ & Hres).
  rewrite Hres. unfold classification_value.
  destruct (classification c); [right|left]; reflexivity.
Qed.
End Annotate.

Section Loops.
Variable backend : nat -> schema -> list N -> Py.value -> option result.

Lemma classify_loop_is_annotate (prompt : list N) (items : list ref) : forall w,
  classify_loop backend prompt items w
  = annotate_loop backend "content" "hiring_post" HiringPost prompt items w.
Proof.
  induction items as [|post rest IH]; intros w; [reflexivity|].
  cbn [classify_loop annotate_loop]. unfold bind.
  destruct (getitem post "content" w) as [[e|v] w1]; [reflexivity|].
  destruct (inference backend (Some v) (Some prompt) (Some HiringPost) w1) as [[e|c] w2];
    [reflexivity|].
  destruct (setitem post "hiring_post" (classification_value c) w2) as [[e|u] w3];
    [reflexivity|].
  apply IH.
Qed.

Lemma classify_names_loop_is_annotate (prompt : list N) (items : list ref) : forall w,
  classify_names_loop backend prompt items w
  = annotate_loop backend "profile_name" "names_classification" NamesClassification
      prompt items w.
Proof.
  induction items as [|post rest IH]; intros w; [reflexivity|].
  cbn [classify_names_loop annotate_loop]. unfold bind.
  destruct (getitem post "profile_name" w) as [[e|v] w1]; [reflexivity|].
  destruct (inference backend (Some v) (Some prompt) (Some NamesClassification) w1)
    as [[e|c] w2]; [reflexivity|].
  destruct (setitem post "names_classification" (classification_value c) w2)
    as [[e|u] w3]; [reflexivity|].
  apply IH.
Qed.

(** When the call for one post cannot succeed (no [content], an empty
    content, or a request the model fails), [classify_jobs] raises there,
    after the cooldown: [KeyError], the invalid-argument error or the
    inference failure. The posts before it keep the 0/1 [hiring_post] already
    written in place, no other key is changed, and every object that is not
    among those earlier posts is untouched. *)
Theorem classify_jobs_stops_at_first_failure (prompt : list N) (pre : list ref)
    (post : ref) (rest : list ref) (w : world) :
  Text.truthy prompt = true ->
  (forall j l, pre !! j = Some l ->
     exists v c, deref w l !! "content"%string = Some v /\ Py.truthy v = true
       /\ backend (length (sent w) + j) HiringPost prompt v = Some c) ->
  (forall v, deref w post !! "content"%string = Some v -> Py.truthy v = true ->
             backend (length (sent w) + length pre) HiringPost prompt v = None) ->
  exists w',
    classify_jobs backend (Some (pre ++ post :: rest)) prompt w
    = (inl match deref w post !! "content"%string with
           | None => Py.KeyError "content"
           | Some v => if Py.truthy v then Py.InferenceFailure else Py.InvalidArgument
           end, w')
    /\ slept w' = slept w + 10
    /\ length (sent w') =
       length (sent w) + length pre
       + match deref w post !! "content"%string with
         | Some v => if Py.truthy v then 1 else 0
         | None => 0
         end
    /\ (forall l, l ∉ pre -> heap w' !! l = heap w !! l)
    /\ (forall l key, key <> "hiring_post"%string -> deref w' l !! key = deref w l !! key)
    /\ (forall l, l ∈ pre ->
          deref w' l !! "hiring_post"%string = Some (Py.VInt 0)
          \/ deref w' l !! "hiring_post"%string = Some (Py.VInt 1)).
Proof.
  intros Htp Hok Hfail.
  set (w0 := {| heap := heap w; sent := sent w; slept := slept w + 10 |}).
  destruct (annotate_loop_first_failure backend "content" "hiring_post" HiringPost
              ltac:(discriminate) prompt pre post rest w0 Htp Hok Hfail)
    as (w' & Hrun & Hrest).
  exists w'. split; [|exact Hrest].
  assert (Hitems : exists x xs, pre ++ post :: rest = x :: xs)
    by (destruct pre; cbn; eauto).
  destruct Hitems as (x & xs & Hitems).
  unfold classify_jobs. rewrite Hitems. unfold bind at 1, sleep at 1.
  unfold bind at 1. fold w0. rewrite <- Hitems, classify_loop_is_annotate, Hrun.
  reflexivity.
Qed.

(** [classify_names] on a non-empty list whose requests are all answered:
    it returns the list it was given after the cooldown and one request per
    post, made for the post's [profile_name]; it writes only the key
    [names_classification], a 0 or a 1, so that [hiring_post] and every other
    field stay as they are, and objects outside the list are untouched. *)
Theorem classify_names_annotates_in_place (prompt : list N) (items : list ref)
    (w : world) :
  items <> [] ->
  Text.truthy prompt = true ->
  (forall j l, items !! j = Some l ->
     exists v c, deref w l !! "profile_name"%string = Some v /\ Py.truthy v = true
       /\ backend (length (sent w) + j) NamesClassification prompt v = Some c) ->
  exists w',
    classify_names backend (Some items) prompt w = (inr items, w')
    /\ slept w' = slept w + 10
    /\ length (sent w') = length (sent w) + length items
    /\ (forall l, l ∉ items -> heap w' !! l = heap w !! l)
    /\ (forall l key, key <> "names_classification"%string ->
          deref w' l !! key = deref w l !! key)
    /\ (forall l, l ∈ items ->
          deref w' l !! "names_classification"%string = Some (Py.VInt 0)
          \/ deref w' l !! "names_classification"%string = Some (Py.VInt 1))
    /\ (NoDup items ->
        forall j l, items !! j = Some l ->
          exists v c, deref w l !! "profile_name"%string = Some v
            /\ backend (length (sent w) + j) NamesClassification prompt v = Some c
            /\ deref w' l !! "names_classification"%string
               = Some (classification_value c)).
Proof.
  intros Hne Htp Hok.
  set (w0 := {| heap := heap w; sent := sent w; slept := slept w + 10 |}).
  destruct (annotate_loop_spec backend "profile_name" "names_classification"
              NamesClassification ltac:(discriminate) prompt items Htp w0 Hok)
    as (w' & Hrun & Hslept & Hsent & Hframe & Hkeys & Hpost).
  exists w'. split.
  { destruct items as [|x xs]; [contradiction|].
    unfold classify_names. unfold bind at 1, sleep at 1.
    unfold bind at 1. fold w0. rewrite classify_names_loop_is_annotate, Hrun.
    reflexivity. }
  split; [exact Hslept|]. split; [exact Hsent|]. split; [exact Hframe|].
  split; [exact Hkeys|]. split.
  - intros l Hl. destruct (last_occurrence items l Hl) as (j & Hj & Hlast).
    destruct (Hpost j l Hj Hlast) as (v & c & _ & _ & Hres).
    rewrite Hres. unfold classification_value.
    destruct (classification c); [right|left]; reflexivity.
  - intros Hnd j l Hj. apply (Hpost j l Hj).
    intros j' Hj' Hk. pose proof (NoDup_lookup items j j' l Hnd Hj Hk). lia.
Qed.
End Loops.

Lemma classify_jobs_stops_at_first_failure_witness :
  Text.truthy Samples.sample_prompt = true
  /\ exists w',
       classify_jobs Samples.failing_backend (Some [1%positive; 2%positive])
         Samples.sample_prompt Samples.sample_world
       = (inl Py.InferenceFailure, w')
       /\ length (sent w') = 2
       /\ heap w' !! 2%positive = heap Samples.sample_world !! 2%positive
       /\ (deref w' 1%positive !! "hiring_post"%string = Some (Py.VInt 0)
           \/ deref w' 1%positive !! "hiring_post"%string = Some (Py.VInt 1)).
Proof.
  assert (Htp : Text.truthy Samples.sample_prompt = true) by reflexivity.
  split; [exact Htp|].
  destruct (classify_jobs_stops_at_first_failure Samples.failing_backend
              Samples.sample_prompt [1%positive] 2%positive [] Samples.sample_world Htp)
    as (w' & Hrun & _ & Hsent & Hframe & _ & Hpre).
  { intros j l Hj. destruct j as [|j]; cbn in Hj; try discriminate.
    injection Hj as <-. eexists _, _. vm_compute. repeat split. }
  { intros v _ _. reflexivity. }
  exists w'. split; [exact Hrun|]. split; [exact Hsent|]. split.
  - apply Hframe. intros H%list_elem_of_singleton. discriminate.
  - apply Hpre. constructor.
Defined.

Lemma classify_names_annotates_in_place_witness :
  [1%positive; 2%positive] <> []
  /\ Text.truthy Samples.sample_prompt = true
  /\ exists w',
       classify_names Samples.sample_backend (Some [1%positive; 2%positive])
         Samples.sample_prompt Samples.sample_world
       = (inr [1%positive; 2%positive], w')
       /\ deref w' 1%positive !! "content"%string
          = deref Samples.sample_world 1%positive !! "content"%string.
Proof.
  assert (Hne : [1%positive; 2%positive] <> []) by discriminate.
  assert (Htp : Text.truthy Samples.sample_prompt = true) by reflexivity.
  split; [exact Hne|]. split; [exact Htp|].
  destruct (classify_names_annotates_in_place Samples.sample_backend
              Samples.sample_prompt [1%positive; 2%positive] Samples.sample_world
              Hne Htp)
    as (w' & Hrun & _ & _ & _ & Hkeys & _).
  { intros j l Hj. destruct j as [|[|j]]; cbn in Hj; try discriminate;
      injection Hj as <-; eexists _, _; vm_compute; repeat split. }
  exists w'. split; [exact Hrun|]. apply Hkeys. discriminate.
Defined.

End AnnotationFacts.

(** ** [save_posts_to_csv]: what is returned, successive calls, a store that
    cannot be read *)
Module AppendFacts.
Import Main Pipeline PersistenceFacts.
Local Open Scope nat_scope.

Section Appends.
Context {File : Type}.
Variable to_csv_text : dataframe -> File.
Variable read_csv_text : File -> option dataframe.

(** On an existing file that [pd.read_csv] cannot parse a call fails before
    the write, hands the batch back and leaves the file as it is. *)
Lemma save_posts_to_csv_unreadable_store (posts : list Py.dict) (env : @io File)
    (text : File) :
  read_csv_text text = None ->
  let s := save_posts_to_csv to_csv_text read_csv_text (Some posts) env (Some text) in
  store s = Some text /\ returned s = posts /\ ~ In Op_to_csv (ops s).
Proof.
  intros Hread. cbn zeta. unfold save_posts_to_csv.
  destruct posts as [|p ps]; [cbn; auto|].
  rewrite Hread. destruct (read_raises env); cbn; repeat split;
    intros [H|[H|[]]]; discriminate.
Qed.

(** An existing file that [pd.read_csv] cannot parse is never repaired:
    however many batches are saved, and whatever the environment does, the
    file stays as it is, so that none of the batches is persisted. *)
Theorem save_all_unreadable_store (calls : list (list Py.dict * @io File))
    (text : File) :
  read_csv_text text = None ->
  save_all to_csv_text read_csv_text calls (Some text) = Some text.
Proof.
  intros Hread. unfold save_all.
  induction calls as [|[posts env] calls IH]; [reflexivity|].
  cbn [fold_left fst snd].
  rewrite (proj1 (save_posts_to_csv_unreadable_store posts env text Hread)).
  exact IH.
Qed.

Hypothesis round_trip : forall df, read_csv_text (to_csv_text df) = Some df.

(** A call during which nothing raises returns the table the store then
    holds: the records that were there followed by the batch. *)
Theorem save_posts_to_csv_returns_stored (posts : list Py.dict) (env : @io File)
    (file : option File) (df0 : dataframe) :
  posts <> [] ->
  read_raises env = false -> write env = Write_ok ->
  records read_csv_text file = Some df0 ->
  let s := save_posts_to_csv to_csv_text read_csv_text (Some posts) env file in
  returned s = df0 ++ posts
  /\ records read_csv_text (store s) = Some (returned s)
  /\ logged s = [ match file with
                  | Some _ => Info_appended (length posts) (length df0 + length posts)
                  | None => Info_saved (length posts)
                  end ].
Proof using round_trip.
  intros Hne Hread Hwrite Hfile. cbn zeta.
  destruct posts as [|p ps]; [contradiction|].
  unfold save_posts_to_csv. destruct file as [text|].
  - cbn in Hfile. rewrite Hread, Hfile. unfold to_csv. rewrite Hwrite.
    cbn [returned store logged records]. rewrite round_trip, length_app.
    repeat split.
  - cbn in Hfile. injection Hfile as <-. unfold to_csv. rewrite Hwrite.
    cbn [returned store logged records app]. rewrite round_trip. repeat split.
Qed.

(** Successive calls during which nothing raises leave in the store the
    records it held followed by all the batches, in the order of the calls. *)
Theorem save_all_appends (calls : list (list Py.dict * @io File))
    (file : option File) (df0 : dataframe) :
  Forall (fun call => read_raises call.2 = false /\ write call.2 = Write_ok) calls ->
  records read_csv_text file = Some df0 ->
  records read_csv_text (save_all to_csv_text read_csv_text calls file)
  = Some (df0 ++ concat (map fst calls)).
Proof using round_trip.
  intros Hcalls. revert file df0. unfold save_all.
  induction Hcalls as [|[posts env] calls [Hr Hw] _ IH]; intros file df0 Hfile.
  - cbn. rewrite app_nil_r. exact Hfile.
  - cbn [fold_left map concat fst snd]. rewrite app_assoc. apply IH.
    apply (save_posts_to_csv_appends to_csv_text read_csv_text round_trip
             posts env file df0 Hr Hw Hfile).
Qed.
End Appends.

Lemma save_all_unreadable_store_witness :
  Samples.strict_text_to_table [] = None
  /\ save_all Samples.table_to_text Samples.strict_text_to_table
       [ ([Samples.ada_post], Samples.no_fault); ([Samples.bob_post], Samples.no_fault) ]
       (Some [])
     = Some [].
Proof.
  assert (H : Samples.strict_text_to_table [] = None) by reflexivity.
  split; [exact H|].
  exact (save_all_unreadable_store Samples.table_to_text Samples.strict_text_to_table
           _ [] H).
Defined.

Lemma save_posts_to_csv_returns_stored_witness :
  (forall df, Samples.text_to_table (Samples.table_to_text df) = Some df)
  /\ returned (save_posts_to_csv Samples.table_to_text Samples.text_to_table
                 (Some [Samples.bob_post]) Samples.no_fault (Some [Samples.ada_post]))
     = [Samples.ada_post; Samples.bob_post].
Proof.
  assert (Hrt : forall df, Samples.text_to_table (Samples.table_to_text df) = Some df)
    by reflexivity.
  split; [exact Hrt|].
  assert (Hne : [Samples.bob_post] <> []) by discriminate.
  exact (proj1 (save_posts_to_csv_returns_stored Samples.table_to_text
                  Samples.text_to_table Hrt [Samples.bob_post] Samples.no_fault
                  (Some [Samples.ada_post]) [Samples.ada_post]
                  Hne eq_refl eq_refl eq_refl)).
Defined.

Lemma save_all_appends_witness :
  (forall df, Samples.text_to_table (Samples.table_to_text df) = Some df)
  /\ records Samples.text_to_table
       (save_all Samples.table_to_text Samples.text_to_table
          [ ([Samples.ada_post], Samples.no_fault); ([], Samples.no_fault);
            ([Samples.bob_post], Samples.no_fault) ] None)
     = Some [Samples.ada_post; Samples.bob_post].
Proof.
  assert (Hrt : forall df, Samples.text_to_table (Samples.table_to_text df) = Some df)
    by reflexivity.
  split; [exact Hrt|].
  apply (save_all_appends Samples.table_to_text Samples.text_to_table Hrt
           [ ([Samples.ada_post], Samples.no_fault); ([], Samples.no_fault);
             ([Samples.bob_post], Samples.no_fault) ] None []).
  - repeat constructor.
  - reflexivity.
Defined.

End AppendFacts.

(** ** One iteration of the pipeline *)
Module IterationFacts.
Import Main Pipeline ClassifyFacts AnnotationFacts PersistenceFacts.
Local Open Scope nat_scope.

Lemma PROMPT_HIRING_POST_truthy : Text.truthy Prompts.PROMPT_HIRING_POST = true.
Proof. vm_compute. reflexivity. Qed.

Section Iteration.
Context {File : Type}.
Variable backend : nat -> schema -> list N -> Py.value -> option result.
Variable to_csv_text : dataframe -> File.
Variable read_csv_text : File -> option dataframe.

Lemma iteration_of_posts (posts : list ref) (env : @io File) (w : world)
    (file : option File) :
  posts <> [] ->
  iteration backend to_csv_text read_csv_text (inr posts) env w file
  = match classify_jobs backend (Some posts) Prompts.PROMPT_HIRING_POST w with
    | (inl e, w') =>
        {| end_world := w'; end_file := file; end_saved := None;
           end_log := Iteration_error e |}
    | (inr posts', w') =>
        let s := save_posts_to_csv to_csv_text read_csv_text
                   (Some (map (deref w') posts')) env file in
        {| end_world := w'; end_file := store s; end_saved := Some s;
           end_log := Completed (length posts') |}
    end.
Proof. intros Hne. destruct posts; [contradiction|reflexivity]. Qed.

Lemma classify_jobs_run (prompt : list N) (items : list ref) (w : world) :
  items <> [] ->
  Text.truthy prompt = true ->
  (forall j l, items !! j = Some l ->
     exists v c, deref w l !! "content"%string = Some v /\ Py.truthy v = true
       /\ backend (length (sent w) + j) HiringPost prompt v = Some c) ->
  exists w',
    classify_jobs backend (Some items) prompt w = (inr items, w')
    /\ (forall l key, key <> "hiring_post"%string -> deref w' l !! key = deref w l !! key)
    /\ (forall l, l ∈ items ->
          deref w' l !! "hiring_post"%string = Some (Py.VInt 0)
          \/ deref w' l !! "hiring_post"%string = Some (Py.VInt 1)).
Proof.
  intros Hne Htp Hok.
  set (w0 := {| heap := heap w; sent := sent w; slept := slept w + 10 |}).
  destruct (classify_loop_spec backend prompt items Htp w0 Hok)
    as (w' & Hrun & _ & _ & _ & Hkeys & Hpost).
  exists w'. split.
  { destruct items as [|x xs]; [contradiction|].
    unfold classify_jobs. unfold bind at 1, sleep at 1.
    unfold bind at 1. fold w0. rewrite Hrun. reflexivity. }
  split; [exact Hkeys|].
  intros l Hl. destruct (last_occurrence items l Hl) as (j & Hj & Hlast).
  destruct (Hpost j l Hj Hlast) as (v & c & _ & _ & Hres).
  rewrite Hres. unfold classification_value.
  destruct (classification c); [right|left]; reflexivity.
Qed.

(** When the classification of one scraped post cannot succeed, the
    iteration ends in its exception handler: [save_posts_to_csv] is not
    called and the file is as before, so that nothing of the batch is
    persisted, the posts classified before the failure included. *)
Theorem iteration_failure_saves_nothing (pre : list ref) (post : ref)
    (rest : list ref) (env : @io File) (w : world) (file : option File) :
  (forall j l, pre !! j = Some l ->
     exists v c, deref w l !! "content"%string = Some v /\ Py.truthy v = true
       /\ backend (length (sent w) + j) HiringPost Prompts.PROMPT_HIRING_POST v = Some c) ->
  (forall v, deref w post !! "content"%string = Some v -> Py.truthy v = true ->
     backend (length (sent w) + length pre) HiringPost Prompts.PROMPT_HIRING_POST v = None) ->
  let it := iteration backend to_csv_text read_csv_text
              (inr (pre ++ post :: rest)) env w file in
  end_file it = file
  /\ end_saved it = None
  /\ end_log it =
     Iteration_error match deref w post !! "content"%string with
                     | None => Py.KeyError "content"
                     | Some v => if Py.truthy v then Py.InferenceFailure
                                 else Py.InvalidArgument
                     end
  /\ (forall l, l ∈ pre ->
        deref (end_world it) l !! "hiring_post"%string = Some (Py.VInt 0)
        \/ deref (end_world it) l !! "hiring_post"%string = Some (Py.VInt 1)).
Proof.
  intros Hok Hfail. cbn zeta.
  set (w0 := {| heap := heap w; sent := sent w; slept := slept w + 10 |}).
  destruct (annotate_loop_first_failure backend "content" "hiring_post" HiringPost
              ltac:(discriminate) Prompts.PROMPT_HIRING_POST pre post rest w0
              PROMPT_HIRING_POST_truthy Hok Hfail)
    as (w' & Hrun & _ & _ & _ & _ & Hpre).
  assert (Hitems : exists x xs, pre ++ post :: rest = x :: xs)
    by (destruct pre; cbn; eauto).
  destruct Hitems as (x & xs & Hitems).
  assert (Hjobs : classify_jobs backend (Some (pre ++ post :: rest))
                    Prompts.PROMPT_HIRING_POST w
                  = (inl match deref w post !! "content"%string with
                         | None => Py.KeyError "content"
                         | Some v => if Py.truthy v then Py.InferenceFailure
                                     else Py.InvalidArgument
                         end, w')).
  { unfold classify_jobs. rewrite Hitems. unfold bind at 1, sleep at 1.
    unfold bind at 1. fold w0. rewrite <- Hitems, classify_loop_is_annotate, Hrun.
    reflexivity. }
  rewrite iteration_of_posts by (rewrite Hitems; discriminate).
  rewrite Hjobs. cbn [end_file end_saved end_log end_world]. repeat split. exact Hpre.
Qed.

Hypothesis round_trip : forall df, read_csv_text (to_csv_text df) = Some df.

(** When every scraped post is classified and nothing raises while saving,
    the iteration appends one row per scraped post, in order, after the
    records the store held: the post as scraped, with a 0/1 [hiring_post]
    added. *)
Theorem iteration_persists_classified (posts : list ref) (env : @io File)
    (w : world) (file : option File) (df0 : dataframe) :
  posts <> [] ->
  (forall j l, posts !! j = Some l ->
     exists v c, deref w l !! "content"%string = Some v /\ Py.truthy v = true
       /\ backend (length (sent w) + j) HiringPost Prompts.PROMPT_HIRING_POST v = Some c) ->
  read_raises env = false -> write env = Write_ok ->
  records read_csv_text file = Some df0 ->
  let it := iteration backend to_csv_text read_csv_text (inr posts) env w file in
  exists rows,
    records read_csv_text (end_file it) = Some (df0 ++ rows)
    /\ length rows = length posts
    /\ end_log it = Completed (length posts)
    /\ forall j l, posts !! j = Some l ->
         exists row, rows !! j = Some row
           /\ (forall key, key <> "hiring_post"%string -> row !! key = deref w l !! key)
           /\ (row !! "hiring_post"%string = Some (Py.VInt 0)
               \/ row !! "hiring_post"%string = Some (Py.VInt 1)).
Proof using round_trip.
  intros Hne Hok Hread Hwrite Hfile. cbn zeta.
  destruct (classify_jobs_run Prompts.PROMPT_HIRING_POST posts w Hne
              PROMPT_HIRING_POST_truthy Hok)
    as (w' & Hrun & Hkeys & Hpost).
  exists (map (deref w') posts).
  rewrite (iteration_of_posts posts env w file Hne), Hrun.
  cbn zeta. cbn [end_file end_log]. split.
  { apply (save_posts_to_csv_appends to_csv_text read_csv_text round_trip
             _ env file df0 Hread Hwrite Hfile). }
  split; [apply length_map|]. split; [reflexivity|].
  intros j l Hj. exists (deref w' l). split.
  { rewrite list_lookup_fmap, Hj. reflexivity. }
  split; [intros key Hkey; apply Hkeys, Hkey|].
  apply Hpost. apply list_elem_of_lookup. eauto.
Qed.
End Iteration.

Lemma iteration_failure_saves_nothing_witness :
  end_file (iteration Samples.failing_backend Samples.table_to_text
              Samples.text_to_table (inr [1%positive; 2%positive]) Samples.no_fault
              Samples.sample_world (Some [Samples.ada_post]))
  = Some [Samples.ada_post]
  /\ end_log (iteration Samples.failing_backend Samples.table_to_text
                Samples.text_to_table (inr [1%positive; 2%positive]) Samples.no_fault
                Samples.sample_world (Some [Samples.ada_post]))
     = Iteration_error Py.InferenceFailure.
Proof.
  destruct (iteration_failure_saves_nothing Samples.failing_backend
              Samples.table_to_text Samples.text_to_table [1%positive] 2%positive []
              Samples.no_fault Samples.sample_world (Some [Samples.ada_post]))
    as (Hfile & _ & Hlog & _).
  { intros j l Hj. destruct j as [|j]; cbn in Hj; try discriminate.
    injection Hj as <-. eexists _, _. vm_compute. repeat split. }
  { intros v _ _. reflexivity. }
  split; [exact Hfile|exact Hlog].
Defined.

Lemma iteration_persists_classified_witness :
  (forall df, Samples.text_to_table (Samples.table_to_text df) = Some df)
  /\ exists rows,
       records Samples.text_to_table
         (end_file (iteration Samples.sample_backend Samples.table_to_text
                      Samples.text_to_table (inr [1%positive; 2%positive])
                      Samples.no_fault Samples.sample_world None))
       = Some ([] ++ rows)
       /\ length rows = 2.
Proof.
  assert (Hrt : forall df, Samples.text_to_table (Samples.table_to_text df) = Some df)
    by reflexivity.
  split; [exact Hrt|].
  assert (Hne : [1%positive; 2%positive] <> []) by discriminate.
  destruct (iteration_persists_classified Samples.sample_backend
              Samples.table_to_text Samples.text_to_table Hrt
              [1%positive; 2%positive] Samples.no_fault Samples.sample_world None []
              Hne)
    as (rows & Hrec & Hlen & _); try reflexivity.
  { intros j l Hj. destruct j as [|[|j]]; cbn in Hj; try discriminate;
      injection Hj as <-; eexists _, _; vm_compute; repeat split. }
  exists rows. split; [exact Hrec|exact Hlen].
Defined.

End IterationFacts.

(** ** [check_device_usage] *)
Module DeviceFacts.
Import Text Device.

(** A value of [device_info] on the way: still unknown, or naming a
    device. *)
Lemma names_device_not_Unknown (s : list N) : names_device s = true -> s <> Unknown.
Proof. intros H ->. vm_compute in H. discriminate. Qed.

Section Check.
Variable db : unicode_db.

Lemma method1_ok (m : machine) :
  method1 db m = Unknown \/ names_device (method1 db m) = true.
Proof.
  unfold method1. destruct (ollama_ps m) as [result|]; [|left; reflexivity].
  destruct ((returncode result =? 0)%Z && truthy (stdout result)); [|left; reflexivity].
  cbn zeta.
  destruct (contains (str_of "cuda") _ || contains (str_of "nvidia") _);
    [right; reflexivity|].
  destruct (contains (str_of "metal") _); [right; reflexivity|].
  destruct (contains (str_of "cpu") _ && contains (str_of "100%") _);
    [right; reflexivity|left; reflexivity].
Qed.

Lemma method2_ok (m : machine) (d : list N) :
  d = Unknown \/ names_device d = true ->
  method2 db m d = Unknown \/ names_device (method2 db m d) = true.
Proof.
  intros Hd. unfold method2. case_bool_decide as Hu; [|exact Hd].
  destruct (String.eqb (system m) "linux").
  { cbn zeta.
    assert (Hn : match nvidia_smi m with
                 | Some result =>
                     if (returncode result =? 0)%Z
                        && truthy (Extraction.strip db (stdout result))
                     then str_of "GPU (CUDA) - Available" else d
                 | None => d
                 end = Unknown
                 \/ names_device match nvidia_smi m with
                    | Some result =>
                        if (returncode result =? 0)%Z
                           && truthy (Extraction.strip db (stdout result))
                        then str_of "GPU (CUDA) - Available" else d
                    | None => d
                    end = true).
    { destruct (nvidia_smi m) as [result|]; [|exact Hd].
      destruct ((returncode result =? 0)%Z && truthy _); [right; reflexivity|exact Hd]. }
    destruct (rocm_smi m) as [result|]; [|exact Hn].
    destruct (returncode result =? 0)%Z; [right; reflexivity|exact Hn]. }
  destruct (String.eqb (system m) "darwin").
  { destruct (system_profiler m) as [result|]; [|exact Hd].
    destruct (returncode result =? 0)%Z; [|exact Hd]. cbn zeta.
    destruct (_ || _); right; reflexivity. }
  destruct (String.eqb (system m) "windows"); [right; reflexivity|exact Hd].
Qed.

Lemma method3_ok (m : machine) (d : list N) :
  d = Unknown \/ names_device d = true ->
  method3 m d = Unknown \/ names_device (method3 m d) = true.
Proof.
  intros Hd. unfold method3. case_bool_decide as Hu; [|exact Hd].
  destruct (OLLAMA_NUM_GPU m) as [num_gpu|]; [|exact Hd].
  destruct (truthy num_gpu && negb (bool_decide (num_gpu = str_of "0")));
    right; reflexivity.
Qed.

(** Whatever the machine answers, [check_device_usage] returns a description
    that starts with "GPU" or with "CPU"; in particular it never returns
    "Unknown". *)
Theorem check_device_usage_names_device (m : machine) :
  names_device (check_device_usage db m) = true
  /\ check_device_usage db m <> Unknown.
Proof.
  assert (H : names_device (check_device_usage db m) = true).
  { unfold check_device_usage. cbn zeta.
    destruct (method3_ok m _ (method2_ok m _ (method1_ok m))) as [Hu|Hn].
    - rewrite Hu. reflexivity.
    - case_bool_decide as Hd; [reflexivity|exact Hn]. }
  split; [exact H|apply names_device_not_Unknown, H].
Qed.

(** On Linux, when [ollama ps] settles nothing, a [rocm-smi] that exits with
    0 decides: the answer is the ROCm one even if [nvidia-smi] has listed a
    GPU, and the variable [OLLAMA_NUM_GPU] is not looked at. *)
Theorem check_device_usage_rocm_overrides (m : machine) (result : completed) :
  system m = "linux"%string ->
  method1 db m = Unknown ->
  rocm_smi m = Some result -> returncode result = 0%Z ->
  check_device_usage db m = str_of "GPU (ROCm) - Available".
Proof.
  intros Hsys H1 Hrocm Hret.
  assert (H2 : method2 db m (method1 db m) = str_of "GPU (ROCm) - Available").
  { unfold method2. rewrite H1, bool_decide_eq_true_2 by reflexivity.
    rewrite Hsys. cbn [String.eqb Ascii.eqb Bool.eqb]. cbn zeta.
    rewrite Hrocm, Hret. reflexivity. }
  unfold check_device_usage. cbn zeta. rewrite H2. reflexivity.
Qed.
End Check.

Lemma check_device_usage_rocm_overrides_witness :
  system Samples.linux_machine = "linux"%string
  /\ method1 ascii_db Samples.linux_machine = Unknown
  /\ check_device_usage ascii_db Samples.linux_machine = str_of "GPU (ROCm) - Available".
Proof.
  split; [reflexivity|]. split; [reflexivity|].
  exact (check_device_usage_rocm_overrides ascii_db Samples.linux_machine
           {| returncode := 0; stdout := [] |} eq_refl eq_refl eq_refl eq_refl).
Defined.

End DeviceFacts.

(** ** The keyword gate as a substring test *)
Module KeywordFacts.
Import Text Scrape Caseless TextFacts FilterFacts RelevanceFacts.

Lemma lit_atom_matches (x c : N) :
  ascii_isupper x = false ->
  atom_matches ascii_db (lit_atom x) c = (x =? ascii_tolower c).
Proof.
  intros Hx. unfold lit_atom. rewrite Hx. cbn [orb].
  destruct (ascii_islower x) eqn:Hl; cbn.
  - unfold ascii_tolower at 2. rewrite Hx. rewrite orb_false_r. apply N.eqb_sym.
  - rewrite N.eqb_sym. unfold ascii_tolower.
    destruct (ascii_isupper c) eqn:Hc; [|reflexivity].
    unfold ascii_isupper, ascii_islower in *.
    apply andb_true_iff in Hc as [E1 E2]. apply N.leb_le in E1, E2.
    assert (H1 : x <> c).
    { intros ->. apply andb_false_iff in Hx as [H|H]; apply N.leb_gt in H; lia. }
    assert (H2 : x <> c + 32).
    { intros ->. apply andb_false_iff in Hl as [H|H]; apply N.leb_gt in H; lia. }
    apply N.eqb_neq in H1, H2. rewrite H1, H2. reflexivity.
Qed.

Lemma match_at_lit (w : list N) :
  forallb (fun x => negb (ascii_isupper x)) w = true ->
  forall s, match_at ascii_db (lit_chars w) s = is_prefix w (map ascii_tolower s).
Proof.
  induction w as [|x w IH]; intros Hw s.
  - destruct s; reflexivity.
  - cbn in Hw. apply andb_true_iff in Hw as [Hx Hw]. apply negb_true_iff in Hx.
    destruct s as [|c s]; [reflexivity|].
    cbn [lit_chars foldr match_at nullable andb orb deriv map is_prefix].
    rewrite (lit_atom_matches x c Hx).
    destruct (x =? ascii_tolower c); cbn [seq andb].
    + apply IH, Hw.
    + apply match_at_Nul.
Qed.

(** Under [re.IGNORECASE] a word without capitals is found in a text exactly
    when it is a piece of the lower-cased text. *)
Lemma re_search_lit (w : string) (s : list N) :
  forallb (fun x => negb (ascii_isupper x)) (str_of w) = true ->
  re_search ascii_db (lit w) s = contains (str_of w) (map ascii_tolower s).
Proof.
  intros Hw. change (lit w) with (lit_chars (str_of w)).
  induction s as [|c s IH].
  - cbn [re_search contains map]. rewrite (match_at_lit _ Hw []). reflexivity.
  - cbn [re_search contains map]. rewrite IH, (match_at_lit _ Hw (c :: s)). reflexivity.
Qed.

Section Tables.
Variable db : unicode_db.
Hypothesis Hdb : ascii_exact db.

(** For an ASCII content [is_job_post] is a matter of pieces of the
    lower-cased text: it returns true exactly when one of the 17 job keywords
    is such a piece and at least two of the indicators hold. *)
Theorem is_job_post_keyword_in_lower (content : list N) :
  Forall (fun c => c < 128) content ->
  (is_job_post db content = true
   <-> (exists kw, In kw Settings.JOB_KEYWORDS /\ in_lower db kw content = true)
       /\ (2 <= indicators db content)%nat).
Proof using Hdb.
  intros Hs.
  assert (Hgate : re_search db job_pattern content = true
                  <-> exists kw, In kw Settings.JOB_KEYWORDS
                                 /\ in_lower db kw content = true).
  { rewrite (re_search_ascii db Hdb) by (first [exact Hs|vm_compute; reflexivity]).
    unfold job_pattern. rewrite re_search_alts. unfold in_lower.
    rewrite (str_lower_ascii db Hdb content Hs). cbn [str_lower ascii_db].
    split.
    - intros H. apply existsb_exists in H as (r & Hin & Hr).
      apply in_map_iff in Hin as (kw & <- & Hkw). exists kw. split; [exact Hkw|].
      rewrite <- re_search_lit; [exact Hr|].
      cbn in Hkw. repeat (destruct Hkw as [<-|Hkw]; [vm_compute; reflexivity|]).
      destruct Hkw.
    - intros (kw & Hkw & Hc). apply existsb_exists. exists (lit kw).
      split; [apply in_map, Hkw|].
      rewrite re_search_lit; [exact Hc|].
      cbn in Hkw. repeat (destruct Hkw as [<-|Hkw]; [vm_compute; reflexivity|]).
      destruct Hkw. }
  rewrite <- Hgate. split.
  - apply is_job_post_true.
  - intros [Hg Hn]. rewrite (is_job_post_scored db content Hg).
    apply Nat.leb_le. exact Hn.
Qed.
End Tables.

Lemma is_job_post_keyword_in_lower_witness :
  ascii_exact ascii_db
  /\ Forall (fun c => c < 128) Samples.hiring_text
  /\ (is_job_post ascii_db Samples.hiring_text = true
      <-> (exists kw, In kw Settings.JOB_KEYWORDS
                      /\ in_lower ascii_db kw Samples.hiring_text = true)
          /\ (2 <= indicators ascii_db Samples.hiring_text)%nat).
Proof.
  split; [exact ascii_db_exact|]. split; [exact hiring_text_ascii|].
  exact (is_job_post_keyword_in_lower ascii_db ascii_db_exact _ hiring_text_ascii).
Defined.

End KeywordFacts.

(** ** The deduplication loop: candidates already seen *)
Module DedupMoreFacts.
Import Scrape DedupFacts.

Lemma scrape_steps_seen (ds : list (option post_data)) : forall st,
  (forall p, Some p ∈ ds -> url p ∈ processed_urls st) ->
  fold_left scrape_step ds st = st.
Proof.
  induction ds as [|d ds IH]; intros st Hseen; [reflexivity|].
  cbn [fold_left].
  assert (Hstep : scrape_step st d = st).
  { destruct d as [p|]; [|reflexivity]. unfold scrape_step.
    rewrite bool_decide_eq_true_2; [reflexivity|].
    apply Hseen. constructor. }
  rewrite Hstep. apply IH. intros p Hp. apply Hseen. apply elem_of_cons. right. exact Hp.
Qed.

(** Candidates that come after the first occurrence of their url change
    nothing: if every candidate of [more] has the url of some candidate of
    [candidates], offering [more] after [candidates] gives the same posts as
    [candidates] alone. In particular a page that lists every post twice
    yields each post once. *)
Theorem scrape_posts_seen_again (candidates more : list (option post_data)) :
  (forall p, Some p ∈ more ->
     exists q, Some q ∈ candidates /\ url q = url p) ->
  scrape_loop (candidates ++ more) = scrape_loop candidates
  /\ scrape_posts (candidates ++ more) = scrape_posts candidates
  /\ scrape_posts (candidates ++ candidates) = scrape_posts candidates.
Proof.
  intros Hmore.
  destruct (scrape_loop_invariant candidates) as (_ & Hall & _).
  assert (Hseen : forall p, Some p ∈ candidates ->
                    url p ∈ processed_urls (scrape_loop candidates)).
  { intros p Hp. apply list_elem_of_lookup in Hp as (j & Hj). apply (Hall j p Hj). }
  assert (Hloop : forall ds,
            (forall p, Some p ∈ ds -> exists q, Some q ∈ candidates /\ url q = url p) ->
            scrape_loop (candidates ++ ds) = scrape_loop candidates).
  { intros ds Hds. unfold scrape_loop. rewrite fold_left_app.
    apply scrape_steps_seen. intros p Hp.
    destruct (Hds p Hp) as (q & Hq & <-). apply Hseen, Hq. }
  assert (Hposts : forall cs, scrape_posts cs = fetched_posts (scrape_loop cs))
    by (intros cs; destruct cs; reflexivity).
  split; [apply Hloop, Hmore|]. split.
  - rewrite !Hposts, (Hloop more Hmore). reflexivity.
  - rewrite !Hposts, (Hloop candidates); [reflexivity|]. intros p Hp. eauto.
Qed.

Lemma scrape_posts_seen_again_witness :
  (forall p, Some p ∈ [Some Samples.ada_extracted; None] ->
     exists q, Some q ∈ [None; Some Samples.ada_extracted]
               /\ url q = url p)
  /\ scrape_loop ([None; Some Samples.ada_extracted]
                  ++ [Some Samples.ada_extracted; None])
     = scrape_loop [None; Some Samples.ada_extracted].
Proof.
  assert (H : forall p, Some p ∈ [Some Samples.ada_extracted; None] ->
                exists q, Some q ∈ [None; Some Samples.ada_extracted]
                          /\ url q = url p).
  { intros p Hp. exists p. split; [|reflexivity].
    apply elem_of_cons in Hp as [Hp|Hp].
    - rewrite Hp. apply elem_of_cons. right. constructor.
    - apply list_elem_of_singleton in Hp. discriminate. }
  split; [exact H|].
  exact (proj1 (scrape_posts_seen_again _ _ H)).
Defined.

End DedupMoreFacts.
